(** * AI-State-Analyzer: state detection, recording, conversion, replay, restore

    A shallow embedding of the core of the repository and its properties:

    - [Converter]: [convert_recording_to_script]
      (playwright_recorder/convert_to_script.py);
    - [Replayer]: [SessionReplayer.replay] and [_execute_event]
      (playwright_recorder/replay_session.py);
    - [Detector]: [generate_tracking_js], the text of the
      [getCurrentState] it generates, read and run as JavaScript, with
      the DOM helpers (panel_generator.py);
    - [Recorder]: [_detect_current_state], [_capture_snapshot],
      [_check_stage_change], the polling loop of [record] and
      [_save_snapshots] (playwright_recorder/record_session.py);
    - [Validator]: [_validate_states_json] (state_analyzer.py);
    - [MiniJS]: the JavaScript that restore scripts are written in;
    - [TestStage]: [restore_state] (playwright_recorder/test_stage.py).

    Modelling conventions.

    - Python floats that carry time (event timestamps, clock readings,
      playback speed) are idealised as exact rationals [Q]; [round(x, 1)]
      is rounding to one decimal with ties to even. The numbers of the
      application (counters, stage ids, coordinates) are integers.
    - The characters of strings are the code points below 256.
    - Python dictionaries read from JSON with a fixed set of keys are
      records, absent keys are [None]; the ['type'] tag of an event is a
      constructor. Dictionaries used as maps are [gmap]s.
    - An exception is a [None] (or a constructor of the result type) where
      the code catches it or lets it escape; what the code prints is left
      out.
    - JavaScript that the code writes is kept as the text it is, and is
      read within a fragment of the language; a text outside the fragment
      is reported as such, and is not given a meaning.
    - The page is what the code reads and writes of it: its global
      variables, the elements it addresses by id with their content and
      inline display, and whether it is closed; inside one call the page
      does not change by itself. *)

From Stdlib Require Import Ascii String QArith Qround Qminmax Lqa.
From stdpp Require Import base option list strings gmap pretty sorting.

Set Warnings "-register-all".

Open Scope Z_scope.

(** ** Rational helpers *)

Definition Qltb (a b : Q) : bool := negb (Qle_bool b a).

(** Nearest integer, ties to even. *)
Definition round_half_even (q : Q) : Z :=
  let f := Qfloor q in
  match (q - inject_Z f ?= 1 # 2)%Q with
  | Lt => f
  | Gt => f + 1
  | Eq => if Z.even f then f else f + 1
  end.

(** Python [round(x, 1)]. *)
Definition py_round1 (q : Q) : Q :=
  Qred (inject_Z (round_half_even (q * 10)) / 10).

(** ** Script converter (convert_to_script.py) *)

Module Converter.

(** A raw event of a recording: [event['type']] selects the constructor. *)
Inductive event_body :=
| EvClick (selector : string) (x y : Z)
| EvScroll (scrollY : Z) (scrollX : option Z)
| EvKeypress (key code : string)
| EvMousemove (x y : Z)
| EvOther (type : string).

Record event := Event { ev_body : event_body; timestamp : Q }.

Inductive action_body :=
| AClick (selector : string) (x y : Z)
| AScroll (scrollY scrollX : Z)
| AKeypress (key : string).

(** [wait = None]: the action dictionary has no ['wait'] key. *)
Record action := Action { act_body : action_body; wait : option Q }.

Record script := Script {
  description : string;
  source_recording : string;
  total_actions : nat;
  actions : list action
}.

(** [event['key'] not in ['Control', 'Meta', 'Shift', 'Alt']] *)
Definition modifier_keys : list string := ["Control"; "Meta"; "Shift"; "Alt"].

Definition is_modifier (key : string) : bool :=
  bool_decide (key ∈ modifier_keys).

(** [if wait_time > 0.1: action['wait'] = round(wait_time, 1)] *)
Definition attach_wait (wait_time : Q) : option Q :=
  if Qltb (1 # 10) wait_time then Some (py_round1 wait_time) else None.

(** One iteration of the [for event in events] loop; the loop state is
    [(actions, last_time)]. *)
Definition convert_event (st : list action * Q) (event : event)
  : list action * Q :=
  let '(actions, last_time) := st in
  let wait_time :=
    if Qltb 0 last_time then (timestamp event - last_time)%Q else 0%Q in
  match ev_body event with
  | EvMousemove _ _ => (actions, last_time)
  | EvClick selector x y =>
      (actions ++ [Action (AClick selector x y) (attach_wait wait_time)],
       timestamp event)
  | EvScroll scrollY scrollX =>
      (actions ++ [Action (AScroll scrollY (default 0 scrollX))
                          (attach_wait wait_time)],
       timestamp event)
  | EvKeypress key _ =>
      if is_modifier key then (actions, last_time)
      else (actions ++ [Action (AKeypress key) (attach_wait wait_time)],
            timestamp event)
  | EvOther _ => (actions, last_time)
  end.

Definition convert_events (events : list event) : list action :=
  fst (foldl convert_event ([], 0%Q) events).

Definition convert_recording_to_script
    (recording_path : string) (events : list event) : script :=
  let actions := convert_events events in
  {| description := "Converted from " +:+ recording_path;
     source_recording := recording_path;
     total_actions := length actions;
     actions := actions |}.

(** [action['type']] *)
Definition action_type (a : action) : string :=
  match act_body a with
  | AClick _ _ _ => "click"
  | AScroll _ _ => "scroll"
  | AKeypress _ => "keypress"
  end.

(** The action an event is converted to, if it is converted at all. *)
Definition action_of (event : event) : option action_body :=
  match ev_body event with
  | EvClick selector x y => Some (AClick selector x y)
  | EvScroll scrollY scrollX => Some (AScroll scrollY (default 0 scrollX))
  | EvKeypress key _ => if is_modifier key then None else Some (AKeypress key)
  | EvMousemove _ _ | EvOther _ => None
  end.

(** The recording [click@0.0, mousemove@0.05, mousemove@0.1, click@0.5]. *)
Definition click_at (t : Q) : event := Event (EvClick "#start" 10 20) t.
Definition mousemove_at (t : Q) : event := Event (EvMousemove 11 21) t.

Definition sample_recording : list event :=
  [click_at 0; mousemove_at (5 # 100); mousemove_at (1 # 10); click_at (1 # 2)].

Definition sample_click (wait : option Q) : action :=
  Action (AClick "#start" 10 20) wait.

(** Events that reach the output. *)
Definition retained (event : event) : bool :=
  match ev_body event with
  | EvClick _ _ _ | EvScroll _ _ => true
  | EvKeypress key _ => negb (is_modifier key)
  | EvMousemove _ _ | EvOther _ => false
  end.

End Converter.

(** ** Event replayer (replay_session.py) *)

Module Replayer.
Import Converter.

(** Python [a / b] on floats: [ZeroDivisionError] ([None]) when [b] is 0. *)
Definition py_div (a b : Q) : option Q :=
  if Qeq_bool b 0 then None else Some (a / b)%Q.

(** Commands sent to the Playwright page. *)
Inductive page_cmd :=
| CmdClick (selector : string)          (* page.click(selector, timeout=2000) *)
| CmdMouseClick (x y : Z)               (* page.mouse.click(x, y) *)
| CmdScrollTo (x y : Z)                 (* window.scrollTo(x, y) *)
| CmdPress (key : string)               (* page.keyboard.press(key) *)
| CmdMouseMove (x y : Z).               (* page.mouse.move(x, y) *)

(** The page under replay: whether a command succeeds (it raises
    otherwise) and how long it takes. *)
Record driver := Driver {
  cmd_ok : page_cmd → bool;
  cmd_cost : page_cmd → Q
}.

(** What the replayer did, in order. *)
Inductive replay_op :=
| Sleep (d : Q)                          (* time.sleep(d) *)
| Exec (event_num : nat) (e : event)     (* _execute_event entered *)
| Dispatch (c : page_cmd) (ok : bool)
| Report (event_num : nat).              (* "Error replaying event ..." *)

(** [now]: what [time.time()] returns. *)
Record world := World { now : Q; ops : list replay_op }.

Definition sleep (d : Q) (w : world) : world :=
  {| now := (now w + d)%Q; ops := ops w ++ [Sleep d] |}.

Definition log (o : replay_op) (w : world) : world :=
  {| now := now w; ops := ops w ++ [o] |}.

(** Runs a command; the boolean is [false] when it raised. *)
Definition dispatch (p : driver) (c : page_cmd) (w : world) : bool * world :=
  (cmd_ok p c,
   {| now := (now w + cmd_cost p c)%Q;
      ops := ops w ++ [Dispatch c (cmd_ok p c)] |}).

(** [_execute_event]; the boolean is [false] when an exception escapes. *)
Definition _execute_event (p : driver) (event : event) (event_num : nat)
    (w : world) : bool * world :=
  let w := log (Exec event_num event) w in
  match ev_body event with
  | EvClick selector x y =>
      let '(ok, w) := dispatch p (CmdClick selector) w in
      if ok then (true, w) else dispatch p (CmdMouseClick x y) w
  | EvScroll scrollY scrollX =>
      dispatch p (CmdScrollTo (default 0 scrollX) scrollY) w
  | EvKeypress key _ => dispatch p (CmdPress key) w
  | EvMousemove x y => dispatch p (CmdMouseMove x y) w
  | EvOther _ => (true, w)
  end.

(** The pause computed before an event: [wait_time] when positive,
    no call of [time.sleep] otherwise. *)
Definition wait_time (speed start_time : Q) (w : world) (event : event)
  : option Q :=
  target_time ← py_div (timestamp event) speed;
  let elapsed := (now w - start_time)%Q in
  Some (target_time - elapsed)%Q.

Definition computed_sleep (wait_time : Q) : Q :=
  if Qltb 0 wait_time then wait_time else 0%Q.

(** One iteration of the replay loop; [None] is an uncaught exception. *)
Definition replay_event (p : driver) (speed start_time : Q)
    (i : nat) (event : event) (w : world) : option world :=
  wait_time ← wait_time speed start_time w event;
  let w := if Qltb 0 wait_time then sleep wait_time w else w in
  let '(ok, w) := _execute_event p event (S i) w in
  Some (if ok then w else log (Report (S i)) w).

Fixpoint replay_loop (p : driver) (speed start_time : Q)
    (i : nat) (events : list event) (w : world) : option world :=
  match events with
  | [] => Some w
  | event :: rest =>
      w ← replay_event p speed start_time i event w;
      replay_loop p speed start_time (S i) rest w
  end.

(** [SessionReplayer.replay], from [start_time = time.time()] to the end
    of the loop. *)
Definition replay (p : driver) (speed : Q) (events : list event)
    (w : world) : option world :=
  replay_loop p speed (now w) 0 events w.

Definition is_sleep (o : replay_op) : option Q :=
  match o with Sleep d => Some d | _ => None end.

Definition is_exec (o : replay_op) : option (nat * event) :=
  match o with Exec n e => Some (n, e) | _ => None end.

(** Total time spent in [time.sleep] by a run of operations. *)
Definition slept (l : list replay_op) : Q :=
  foldr Qplus 0%Q (omap is_sleep l).

End Replayer.

(** ** Values exchanged with the page and stored in JSON files *)

(** What [json.load] and [page.evaluate] return. Numbers are the integer
    counters of the application; a dictionary is the list of its items. *)
Inductive value :=
| VNull
| VBool (b : bool)
| VInt (z : Z)
| VStr (s : string)
| VList (l : list value)
| VDict (d : list (string * value)).

(** [key in d] and [d[key]] on a dictionary. *)
Fixpoint dict_get (d : list (string * value)) (key : string) : option value :=
  match d with
  | [] => None
  | (k, v) :: d => if String.eqb k key then Some v else dict_get d key
  end.

(** [text in s] on strings ([s.includes(text)] in JavaScript). *)
Definition includes (s text : string) : bool :=
  match String.index 0 text s with Some _ => true | None => false end.


(** ** The application under test (instagram_config.py) *)

(** [INSTAGRAM_STATE]: the variables captured in snapshots and the ids of
    the content container and of the counter display. *)
Definition config_variables : list string :=
  ["stage"; "notificationCount"; "tapCount"; "notificationSpeed";
   "escapeAttempts"; "rewardStreak"; "totalRewards"; "isHellMode";
   "urgentTimers"].

Definition content_id : string := "contentArea".
Definition counter_id : string := "counter".

(** The names of [INSTAGRAM_STATE['stages']]. *)
Definition stage_names : list (Z * string) :=
  [(0, "Initial"); (1, "Positive Hook"); (2, "Addictive Mechanics");
   (3, "Acceleration"); (4, "Hell Mode"); (5, "Flood Overlay")].

(** ** The live page, as the Python side sees it through [page.evaluate] *)

(** The children of an element are what was last written to it: markup
    (through [innerHTML]) or plain text (through [textContent]). *)
Inductive content :=
| Markup (html : string)
| Text (text : string).

Record node := Node { nd_content : content; nd_display : string }.

Record page := Page {
  pg_closed : bool;                     (* every evaluate raises *)
  pg_vars : gmap string value;          (* the global variables that are defined *)
  pg_nodes : gmap string node           (* the elements that have an id *)
}.

(** Serialisation of a text node. *)
Fixpoint escape_text (s : string) : string :=
  match s with
  | EmptyString => EmptyString
  | String c s =>
      (if Ascii.eqb c "&" then "&amp;"
       else if Ascii.eqb c "<" then "&lt;"
       else if Ascii.eqb c ">" then "&gt;"
       else String c EmptyString) +:+ escape_text s
  end.

Definition innerHTML (n : node) : string :=
  match nd_content n with
  | Markup html => html
  | Text text => escape_text text
  end.

(** [page.evaluate('typeof name !== "undefined" ? name : fallback')];
    [None] when the call raises. *)
Definition evaluate_or (page : page) (name : string) (fallback : value)
  : option value :=
  if pg_closed page then None
  else Some (default fallback (pg_vars page !! name)).

(** [page.evaluate] of [document.getElementById(id) &&
    document.getElementById(id).style.display === "flex"] *)
Definition evaluate_flex (page : page) (id : string) : option value :=
  if pg_closed page then None
  else Some (match pg_nodes page !! id with
             | None => VNull
             | Some n => VBool (String.eqb (nd_display n) "flex")
             end).

(** [page.evaluate] of [document.getElementById(id) ?
    document.getElementById(id).innerHTML : ""] *)
Definition evaluate_innerHTML (page : page) (id : string) : option value :=
  if pg_closed page then None
  else Some (VStr (default EmptyString (innerHTML <$> pg_nodes page !! id))).

(** ** Python operations on values *)

(** [bool(v)] *)
Definition truthy (v : value) : bool :=
  match v with
  | VNull => false
  | VBool b => b
  | VInt z => negb (z =? 0)
  | VStr s => negb (String.eqb s EmptyString)
  | VList l => match l with [] => false | _ => true end
  | VDict d => match d with [] => false | _ => true end
  end.

(** [v == n] for an integer [n] *)
Definition eq_int (v : value) (n : Z) : bool :=
  match v with
  | VInt z => z =? n
  | VBool b => Z.b2z b =? n
  | _ => false
  end.

(** [v >= n] for an integer [n]; [None] is a [TypeError]. *)
Definition ge_int (v : value) (n : Z) : option bool :=
  match v with
  | VInt z => Some (n <=? z)
  | VBool b => Some (n <=? Z.b2z b)
  | _ => None
  end.


(** ** The JavaScript fragment run by [page.evaluate] on restore scripts

    Statements [target = expression;] where the target is a global
    variable or the [innerHTML] / [textContent] of
    [document.getElementById('id')], and the expression is built from
    literals, global variables and [+]. Scripts that leave the fragment
    are reported as [Unsupported], never given a made-up meaning; the
    characters of strings are the code points below 256. *)

Module MiniJS.

Definition dquote : ascii := "034"%char.
Definition squote : ascii := "'"%char.
Definition backslash : ascii := "\"%char.
Definition LF : ascii := "010"%char.
Definition CR : ascii := "013"%char.

Definition is_line_terminator (c : ascii) : bool :=
  Ascii.eqb c LF || Ascii.eqb c CR.

Definition is_digit (c : ascii) : bool :=
  let n := nat_of_ascii c in ((48 <=? n) && (n <=? 57))%nat.

Definition hex_digit (c : ascii) : option N :=
  let n := N_of_ascii c in
  (if (48 <=? n) && (n <=? 57) then Some (n - 48)
   else if (97 <=? n) && (n <=? 102) then Some (n - 87)
   else if (65 <=? n) && (n <=? 70) then Some (n - 55)
   else None)%N.

(** *** String literals *)

Inductive lex_result :=
| LexOk (value rest : string)
| LexError                      (* a SyntaxError *)
| LexUnsupported.

Definition lex_cons (c : ascii) (r : lex_result) : lex_result :=
  match r with
  | LexOk value rest => LexOk (String c value) rest
  | _ => r
  end.

(** Single-character escapes. *)
Definition simple_escape (e : ascii) : option ascii :=
  if Ascii.eqb e "n" then Some LF
  else if Ascii.eqb e "r" then Some CR
  else if Ascii.eqb e "t" then Some "009"%char
  else if Ascii.eqb e "b" then Some "008"%char
  else if Ascii.eqb e "f" then Some "012"%char
  else if Ascii.eqb e "v" then Some "011"%char
  else None.

Definition code_unit (digits : list (option N)) : option N :=
  foldl (λ acc d, a ← acc; d ← d; Some (16 * a + d)%N) (Some 0%N) digits.

(** The characters after the opening quote [q] up to the closing one,
    decoded; [rest] is what follows the closing quote. *)
Fixpoint lex_string (q : ascii) (s : string) {struct s} : lex_result :=
  match s with
  | EmptyString => LexError
  | String c rest =>
      if Ascii.eqb c q then LexOk EmptyString rest
      else if is_line_terminator c then LexError
      else if Ascii.eqb c backslash then
        match rest with
        | EmptyString => LexError
        | String e rest1 =>
            match simple_escape e with
            | Some d => lex_cons d (lex_string q rest1)
            | None =>
                if Ascii.eqb e "x" then
                  match rest1 with
                  | String h1 (String h2 rest2) =>
                      match code_unit [hex_digit h1; hex_digit h2] with
                      | Some n => lex_cons (ascii_of_N n) (lex_string q rest2)
                      | None => LexError
                      end
                  | _ => LexError
                  end
                else if Ascii.eqb e "u" then
                  match rest1 with
                  | String h1 (String h2 (String h3 (String h4 rest2))) =>
                      if Ascii.eqb h1 "{" then LexUnsupported
                      else
                        match code_unit [hex_digit h1; hex_digit h2;
                                         hex_digit h3; hex_digit h4] with
                        | Some n =>
                            if (n <? 256)%N
                            then lex_cons (ascii_of_N n) (lex_string q rest2)
                            else LexUnsupported
                        | None => LexError
                        end
                  | String h1 _ =>
                      if Ascii.eqb h1 "{" then LexUnsupported else LexError
                  | EmptyString => LexError
                  end
                else if Ascii.eqb e LF then lex_string q rest1
                else if Ascii.eqb e CR then
                  match rest1 with
                  | String l rest2 =>
                      if Ascii.eqb l LF then lex_string q rest2
                      else lex_string q rest1
                  | EmptyString => lex_string q rest1
                  end
                else if is_digit e then
                  if Ascii.eqb e "0" then
                    match rest1 with
                    | String d _ =>
                        if is_digit d then LexUnsupported
                        else lex_cons "000"%char (lex_string q rest1)
                    | EmptyString => lex_cons "000"%char (lex_string q rest1)
                    end
                  else LexUnsupported
                else lex_cons e (lex_string q rest1)
            end
        end
      else lex_cons c (lex_string q rest)
  end.

(** The characters that stand for themselves between quotes [q]. *)
Definition plain_char (q c : ascii) : bool :=
  negb (Ascii.eqb c q) && negb (is_line_terminator c)
  && negb (Ascii.eqb c backslash).

Fixpoint plain_string (q : ascii) (s : string) : bool :=
  match s with
  | EmptyString => true
  | String c s => plain_char q c && plain_string q s
  end.

(** *** Tokens *)

Inductive token :=
| TIdent (name : string)
| TNum (n : Z)
| TStr (s : string)
| TPunct (c : ascii).

Inductive tokens_result :=
| Tokens (l : list token)
| TokError                      (* a SyntaxError *)
| TokUnsupported.

Definition tok_cons (t : token) (r : tokens_result) : tokens_result :=
  match r with
  | Tokens l => Tokens (t :: l)
  | _ => r
  end.

Definition is_space (c : ascii) : bool :=
  Ascii.eqb c " " || Ascii.eqb c "009"%char || is_line_terminator c.

Definition is_ident_start (c : ascii) : bool :=
  let n := nat_of_ascii c in
  ((65 <=? n) && (n <=? 90) || (97 <=? n) && (n <=? 122)
   || (n =? 95) || (n =? 36))%nat.

Definition is_ident_part (c : ascii) : bool :=
  is_ident_start c || is_digit c.

Definition punctuation : list ascii :=
  ["="; ";"; "+"; "-"; "."; ","; ":"; "("; ")"; "["; "]"; "{"; "}"]%char.

(** The longest prefix of characters that satisfy [f], and the rest. *)
Fixpoint span (f : ascii → bool) (s : string) : string * string :=
  match s with
  | EmptyString => (EmptyString, EmptyString)
  | String c rest =>
      if f c then let '(a, b) := span f rest in (String c a, b)
      else (EmptyString, s)
  end.

Definition digits_value (digits : string) : Z :=
  foldl (λ acc c, 10 * acc + Z.of_nat (nat_of_ascii c - 48)) 0
        (list_ascii_of_string digits).

(** Words of the language and names of the host that the fragment gives
    no meaning to. *)
Definition unmodelled_names : list string :=
  ["var"; "let"; "const"; "function"; "return"; "if"; "else"; "for";
   "while"; "do"; "new"; "delete"; "typeof"; "void"; "this"; "in";
   "of"; "instanceof"; "throw"; "try"; "catch"; "finally"; "switch";
   "case"; "default"; "break"; "continue"; "class"; "extends"; "super";
   "import"; "export"; "yield"; "await"; "async"; "with"; "debugger";
   "enum"; "static"; "undefined"; "NaN"; "Infinity"; "window";
   "globalThis"; "self"; "eval"; "location"; "name"; "top"; "parent"].

Definition max_safe_integer : Z := 9007199254740991.

(** A run of digits that is a decimal integer literal with an exact value:
    no leading zero (that would be an octal literal) and at most
    [max_safe_integer]. *)
Definition decimal_literal (digits : string) : bool :=
  match digits with
  | String "0" (String _ _) => false
  | _ => digits_value digits <=? max_safe_integer
  end.

Fixpoint tokenize (fuel : nat) (s : string) : tokens_result :=
  match fuel with
  | O => TokUnsupported
  | S fuel =>
      match s with
      | EmptyString => Tokens []
      | String c rest =>
          if is_space c then tokenize fuel rest
          else if Ascii.eqb c squote || Ascii.eqb c dquote then
            match lex_string c rest with
            | LexOk value rest => tok_cons (TStr value) (tokenize fuel rest)
            | LexError => TokError
            | LexUnsupported => TokUnsupported
            end
          else if is_ident_start c then
            let '(name, rest) := span is_ident_part s in
            if bool_decide (name ∈ unmodelled_names) then TokUnsupported
            else tok_cons (TIdent name) (tokenize fuel rest)
          else if is_digit c then
            let '(digits, rest) := span is_digit s in
            if negb (decimal_literal digits) then TokUnsupported
            else
              match rest with
              | String d _ =>
                  if is_ident_part d || Ascii.eqb d "." then TokUnsupported
                  else tok_cons (TNum (digits_value digits)) (tokenize fuel rest)
              | EmptyString => Tokens [TNum (digits_value digits)]
              end
          else if bool_decide (c ∈ punctuation)
          then tok_cons (TPunct c) (tokenize fuel rest)
          else TokUnsupported
      end
  end.

Definition js_tokens (script : string) : tokens_result :=
  tokenize (S (String.length script)) script.

(** *** Statements *)

Inductive expr :=
| ELit (v : value)
| EVar (x : string)
| EAdd (a b : expr).

Inductive target :=
| TVar (x : string)
| TInner (id : string)        (* document.getElementById('id').innerHTML *)
| TText (id : string).        (* document.getElementById('id').textContent *)

Inductive stmt :=
| SAssign (t : target) (e : expr)
| SExpr (e : expr).

(** A literal: a number, a string, [true], [false], [null], or an array
    or object of literals. [None]: the tokens do not start with one. *)
Fixpoint parse_value (fuel : nat) (toks : list token)
  : option (value * list token) :=
  match fuel with
  | O => None
  | S fuel =>
      let parse_elements :=
        fix elements (n : nat) (toks : list token)
          : option (list value * list token) :=
          match n with
          | O => None
          | S n =>
              '(v, toks) ← parse_value fuel toks;
              match toks with
              | TPunct "," :: toks =>
                  '(vs, toks) ← elements n toks; Some (v :: vs, toks)
              | TPunct "]" :: toks => Some ([v], toks)
              | _ => None
              end
          end in
      let parse_members :=
        fix members (n : nat) (toks : list token)
          : option (list (string * value) * list token) :=
          match n with
          | O => None
          | S n =>
              match toks with
              | TStr key :: TPunct ":" :: toks =>
                  guard (key ≠ "__proto__");;
                  '(v, toks) ← parse_value fuel toks;
                  match toks with
                  | TPunct "," :: toks =>
                      '(ms, toks) ← members n toks;
                      guard (key ∉ ms.*1);;
                      Some ((key, v) :: ms, toks)
                  | TPunct "}" :: toks => Some ([(key, v)], toks)
                  | _ => None
                  end
              | _ => None
              end
          end in
      match toks with
      | TNum n :: toks => Some (VInt n, toks)
      | TPunct "-" :: TNum n :: toks => Some (VInt (- n), toks)
      | TStr s :: toks => Some (VStr s, toks)
      | TIdent "true" :: toks => Some (VBool true, toks)
      | TIdent "false" :: toks => Some (VBool false, toks)
      | TIdent "null" :: toks => Some (VNull, toks)
      | TPunct "[" :: TPunct "]" :: toks => Some (VList [], toks)
      | TPunct "[" :: toks =>
          '(vs, toks) ← parse_elements fuel toks; Some (VList vs, toks)
      | TPunct "{" :: TPunct "}" :: toks => Some (VDict [], toks)
      | TPunct "{" :: toks =>
          '(ms, toks) ← parse_members fuel toks; Some (VDict ms, toks)
      | _ => None
      end
  end.

Definition literal_names : list string := ["true"; "false"; "null"].

Definition parse_atom (toks : list token) : option (expr * list token) :=
  match parse_value (S (length toks)) toks with
  | Some (v, toks) => Some (ELit v, toks)
  | None =>
      match toks with
      | TIdent x :: toks => Some (EVar x, toks)
      | _ => None
      end
  end.

(** [atom + atom + ...], associated to the left. *)
Fixpoint parse_sum (fuel : nat) (lhs : expr) (toks : list token)
  : option (expr * list token) :=
  match fuel with
  | O => None
  | S fuel =>
      match toks with
      | TPunct "+" :: toks =>
          '(rhs, toks) ← parse_atom toks;
          parse_sum fuel (EAdd lhs rhs) toks
      | _ => Some (lhs, toks)
      end
  end.

Definition parse_expr (toks : list token) : option (expr * list token) :=
  '(lhs, toks) ← parse_atom toks;
  parse_sum (S (length toks)) lhs toks.

Definition parse_target (toks : list token) : option (target * list token) :=
  match toks with
  | TIdent "document" :: TPunct "." :: TIdent "getElementById"
      :: TPunct "(" :: TStr id :: TPunct ")" :: TPunct "."
      :: TIdent prop :: TPunct "=" :: toks =>
      if String.eqb prop "innerHTML" then Some (TInner id, toks)
      else if String.eqb prop "textContent" then Some (TText id, toks)
      else None
  | TIdent "document" :: _ => None
  | TIdent x :: TPunct "=" :: toks =>
      if bool_decide (x ∈ literal_names) then None else Some (TVar x, toks)
  | _ => None
  end.

(** A statement ends with [;] or with the script. *)
Definition parse_end (toks : list token) : option (list token) :=
  match toks with
  | [] => Some []
  | TPunct ";" :: toks => Some toks
  | _ => None
  end.

Definition parse_stmt (toks : list token) : option (stmt * list token) :=
  match parse_target toks with
  | Some (t, toks) =>
      '(e, toks) ← parse_expr toks;
      toks ← parse_end toks;
      Some (SAssign t e, toks)
  | None =>
      match toks with
      | TIdent "document" :: _ => None
      | TPunct "{" :: _ => None          (* a block, not an object *)
      | _ =>
          '(e, toks) ← parse_expr toks;
          toks ← parse_end toks;
          match e with
          | ELit (VStr "use strict") => None     (* a directive *)
          | _ => Some (SExpr e, toks)
          end
      end
  end.

Fixpoint parse_stmts (fuel : nat) (toks : list token) : option (list stmt) :=
  match fuel with
  | O => None
  | S fuel =>
      match toks with
      | [] => Some []
      | TPunct ";" :: toks => parse_stmts fuel toks
      | _ =>
          '(s, toks) ← parse_stmt toks;
          l ← parse_stmts fuel toks;
          Some (s :: l)
      end
  end.

Definition parse (toks : list token) : option (list stmt) :=
  parse_stmts (S (length toks)) toks.

(** *** Evaluation *)

Definition safe (z : Z) : option value :=
  if (- max_safe_integer <=? z) && (z <=? max_safe_integer)
  then Some (VInt z) else None.

(** [a + b] on numbers and strings. *)
Definition add (a b : value) : option value :=
  match a, b with
  | VInt x, VInt y => safe (x + y)
  | VStr x, VStr y => Some (VStr (x +:+ y))
  | VStr x, VInt y => Some (VStr (x +:+ pretty y))
  | VInt x, VStr y => Some (VStr (pretty x +:+ y))
  | _, _ => None
  end.

(** The value of an expression; [None]: no meaning in the fragment (in
    particular a name that is not a variable of the page). *)
Fixpoint eval (p : page) (e : expr) : option value :=
  match e with
  | ELit v => Some v
  | EVar x => pg_vars p !! x
  | EAdd a b => va ← eval p a; vb ← eval p b; add va vb
  end.

(** The string written to [innerHTML] or [textContent]. *)
Definition to_text (v : value) : option string :=
  match v with
  | VStr s => Some s
  | VInt z => Some (pretty z)
  | VBool true => Some "true"
  | VBool false => Some "false"
  | VNull => Some EmptyString
  | VList _ | VDict _ => None
  end.

Inductive run_result :=
| Done (p : page)
| Thrown (p : page)       (* an exception, with the page as it was left *)
| NoMeaning.

Definition set_content (p : page) (id : string) (c : content)
  : run_result :=
  match pg_nodes p !! id with
  | None => Thrown p         (* TypeError: null has no properties *)
  | Some n =>
      Done {| pg_closed := pg_closed p; pg_vars := pg_vars p;
              pg_nodes := <[id := Node c (nd_display n)]> (pg_nodes p) |}
  end.

(** The names an assignment is given a meaning for: the variables of the
    page and the key variables of the application (an assignment to an
    undeclared name creates the global). Other names may belong to the
    host. *)
Definition assignable (p : page) (x : string) : bool :=
  bool_decide (x ∈ config_variables) || bool_decide (is_Some (pg_vars p !! x)).

Definition exec_stmt (p : page) (s : stmt) : run_result :=
  match s with
  | SAssign t e =>
      match eval p e with
      | None => NoMeaning
      | Some v =>
          match t with
          | TVar x =>
              if assignable p x
              then Done {| pg_closed := pg_closed p;
                           pg_vars := <[x := v]> (pg_vars p);
                           pg_nodes := pg_nodes p |}
              else NoMeaning
          | TInner id =>
              match to_text v with
              | Some s => set_content p id (Markup s)
              | None => NoMeaning
              end
          | TText id =>
              match to_text v with
              | Some s => set_content p id (Text s)
              | None => NoMeaning
              end
          end
      end
  | SExpr e =>
      match eval p e with
      | None => NoMeaning
      | Some _ => Done p
      end
  end.

Fixpoint run_stmts (p : page) (l : list stmt) : run_result :=
  match l with
  | [] => Done p
  | s :: l =>
      match exec_stmt p s with
      | Done p => run_stmts p l
      | r => r
      end
  end.

(** Expressions and statements that read no variable. *)
Fixpoint closed (e : expr) : bool :=
  match e with
  | ELit _ => true
  | EVar _ => false
  | EAdd a b => closed a && closed b
  end.

Definition closed_stmt (s : stmt) : bool :=
  match s with
  | SAssign _ e | SExpr e => closed e
  end.

(** [reaches p l P]: running [l] from [p] ends, normally or by an
    exception, with the page [P]. *)
Definition reaches (p : page) (l : list stmt) (P : page) : Prop :=
  run_stmts p l = Done P ∨ run_stmts p l = Thrown P.

(** [near q p P]: [q] has, variable by variable and element by element,
    what [p] has or what [P] has. *)
Definition near (q p P : page) : Prop :=
  pg_closed q = pg_closed p
  ∧ (∀ x, pg_vars q !! x = pg_vars p !! x ∨ pg_vars q !! x = pg_vars P !! x)
  ∧ (∀ id, pg_nodes q !! id = pg_nodes p !! id
           ∨ pg_nodes q !! id = pg_nodes P !! id).

Inductive js_result :=
| Completed (p : page)
| SyntaxError                 (* nothing was executed *)
| RuntimeError (p : page)
| Unsupported.

(** Running a script in a page. *)
Definition js_run (script : string) (p : page) : js_result :=
  match js_tokens script with
  | TokError => SyntaxError
  | TokUnsupported => Unsupported
  | Tokens toks =>
      match parse toks with
      | None => Unsupported
      | Some stmts =>
          match run_stmts p stmts with
          | Done p => Completed p
          | Thrown p => RuntimeError p
          | NoMeaning => Unsupported
          end
      end
  end.

End MiniJS.


(** ** Hybrid state detector (panel_generator.py, generated getCurrentState)

    [generate_tracking_js] writes JavaScript: the name, the detection
    condition, the selectors, class names and texts of a state are put
    into the text of [getCurrentState] as they are (only the single
    quotes of a text are escaped), and its id is put where a property
    name and a returned number are read. The generator is modelled as the
    text it writes; the text is then read as JavaScript, within a fragment
    of the language, and run. A script that leaves the fragment is
    [NotRead], an evaluation that leaves it is [Unknown]: neither is given
    a made-up result. *)

Module Detector.

(** A state of [states_schema.json]: an object with an integer ['id'].
    [None]: the key is absent. The DOM lists are those of
    ['dom_detection'], empty when absent; the interactive elements are
    given by their ['selector'] and their ['state'] (['enabled'] when
    absent). *)
Record state_def := StateDef {
  st_id : Z;
  st_name : option string;
  st_detection_condition : option string;
  st_visible_elements : list string;
  st_hidden_elements : list string;
  st_has_class : list (string * string);      (* selector, class *)
  st_text_content : list (string * string);   (* selector, contains *)
  st_interactive_elements : list (string * string)
}.

(** *** The generator (Python) *)

Definition is_ascii_word_char (c : ascii) : bool :=
  let n := nat_of_ascii c in
  ((48 <=? n) && (n <=? 57) || (65 <=? n) && (n <=? 90)
   || (97 <=? n) && (n <=? 122) || (n =? 95))%nat.

(** The characters that [\w] matches in a [str] pattern. *)
Definition is_word_char (c : ascii) : bool :=
  let n := nat_of_ascii c in
  (is_ascii_word_char c
   || (n =? 170) || (n =? 178) || (n =? 179) || (n =? 181) || (n =? 185)
   || (n =? 186) || (188 <=? n) && (n <=? 190) || (192 <=? n) && (n <=? 214)
   || (216 <=? n) && (n <=? 246) || (248 <=? n))%nat.

(** The pattern of [re.findall] is a letter of ASCII or an underscore,
    then letters of ASCII, digits and underscores, between two word
    boundaries: it finds a maximal run of word characters when the run is
    made of these characters and does not start with a digit. *)
Definition identifier_of (run : string) : list string :=
  match run with
  | EmptyString => []
  | String c _ =>
      if negb (MiniJS.is_digit c) && forallb is_ascii_word_char (list_ascii_of_string run)
      then [run] else []
  end.

(** [re.findall] of the identifier pattern over [condition]; [run] is the
    run of word characters read so far. *)
Fixpoint findall_identifiers (run : string) (condition : string) : list string :=
  match condition with
  | EmptyString => identifier_of run
  | String c rest =>
      if is_word_char c
      then findall_identifiers (run +:+ String c EmptyString) rest
      else identifier_of run ++ findall_identifiers EmptyString rest
  end.

Definition not_looked_up : list string :=
  ["true"; "false"; "null"; "undefined"; "Array"; "Math"].

(** The names for which a [const v = findVariable('v')] line is written,
    each once ([set(variables)]; the order of a set is not fixed, and the
    order of these lines does not matter). *)
Definition condition_variables (condition : string) : list string :=
  filter (λ v, v ∉ not_looked_up)
         (remove_dups (findall_identifiers EmptyString condition)).

Definition newline : string := String "010" EmptyString.

(** [contains.replace("'", "\\'")] *)
Fixpoint escape_quotes (s : string) : string :=
  match s with
  | EmptyString => EmptyString
  | String c s =>
      if Ascii.eqb c "'" then String "\" (String "'" (escape_quotes s))
      else String c (escape_quotes s)
  end.

(** The list [checks] *)
Definition checks_of (state : state_def) : list string :=
  ((λ selector, "checkVisible('" +:+ selector +:+ "')")
     <$> st_visible_elements state)
  ++ ((λ selector, "checkHidden('" +:+ selector +:+ "')")
        <$> st_hidden_elements state)
  ++ ((λ item, "checkClass('" +:+ item.1 +:+ "', '" +:+ item.2 +:+ "')")
        <$> st_has_class state)
  ++ ((λ item, "checkText('" +:+ item.1 +:+ "', '"
                 +:+ escape_quotes item.2 +:+ "')")
        <$> st_text_content state).

Definition const_line (var : string) : string :=
  "            const " +:+ var +:+ " = findVariable('" +:+ var +:+ "');"
    +:+ newline.

Definition if_line (test : string) (state_id : Z) : string :=
  "            if (" +:+ test +:+ ") return " +:+ pretty state_id +:+ ";"
    +:+ newline.

(** What one round of the loop over [self.state_list] adds to the text
    (the name is there: see [generate_tracking_js]). *)
Definition generate_state (state : state_def) : string :=
  let condition := default EmptyString (st_detection_condition state) in
  let checks := checks_of state in
  "        " +:+ newline
  +:+ "        // State " +:+ pretty (st_id state) +:+ ": "
  +:+ default EmptyString (st_name state)
  +:+ newline
  +:+ "        try {" +:+ newline
  +:+ "            // Try variable-based detection" +:+ newline
  +:+ (if decide (condition = EmptyString) then EmptyString
       else String.concat EmptyString
              (const_line <$> condition_variables condition)
            +:+ if_line condition (st_id state))
  +:+ "        } catch(e) {" +:+ newline
  +:+ "            // Variables not accessible, try DOM-based detection"
  +:+ newline
  +:+ "        }" +:+ newline
  +:+ "        " +:+ newline
  +:+ "        try {" +:+ newline
  +:+ "            // DOM-based fallback detection" +:+ newline
  +:+ (match checks with
       | [] => EmptyString
       | _ => if_line (String.concat " && " checks) (st_id state)
       end)
  +:+ "        } catch(e) {" +:+ newline
  +:+ "            // DOM detection also failed" +:+ newline
  +:+ "        }" +:+ newline.

(** The text of [getCurrentState] in the generated script. *)
Definition generate_getCurrentState (state_list : list state_def) : string :=
  "    function getCurrentState() {" +:+ newline
  +:+ "        // Hybrid detection: Try variable-based first, fall back to DOM-based"
  +:+ newline
  +:+ String.concat EmptyString (generate_state <$> state_list)
  +:+ "        " +:+ newline
  +:+ "        // If all detection fails, stay in current state" +:+ newline
  +:+ "        return currentTrackedState;" +:+ newline
  +:+ "    }" +:+ newline.

(** The assignment to [stateSegments] in [initStatePanel], where the ids
    are written as property names (as they are in [getStateConfig]). *)
Definition generate_stateSegments (state_list : list state_def) : string :=
  "        stateSegments = {" +:+ newline
  +:+ String.concat EmptyString
        ((λ state, "            " +:+ pretty (st_id state)
                     +:+ ": document.getElementById('state"
                     +:+ pretty (st_id state) +:+ "Dots')," +:+ newline)
           <$> state_list)
  +:+ "        };" +:+ newline.

(** [generate_tracking_js], as far as the text depends on the schema
    otherwise than through [json.dumps]: the ids where property names are
    read, and [getCurrentState]. [state['name']] raises [KeyError] for a
    state without a name, before any text is written. *)
Definition generate_tracking_js (state_list : list state_def)
  : option (string * string) :=
  guard (Forall (λ state, is_Some (st_name state)) state_list);;
  Some (generate_stateSegments state_list,
        generate_getCurrentState state_list).

(** The strings that [json.dumps] writes into the script: the names (in
    [stateNames]) and the interactive elements (in [getStateConfig]). *)
Definition dumped (state : state_def) : list string :=
  option_list (st_name state)
  ++ (st_interactive_elements state).*1 ++ (st_interactive_elements state).*2.

(** *** Reading the text as JavaScript *)

Inductive token :=
| TName (name : string)          (* an identifier or a reserved word *)
| TNumber (n : Z)
| TString (s : string)
| TSym (s : string).

(** A comment [//] runs up to the end of the line. *)
Fixpoint skip_line (s : string) : string :=
  match s with
  | EmptyString => EmptyString
  | String c rest => if MiniJS.is_line_terminator c then s else skip_line rest
  end.

(** After [return], on the same line, something other than a comment
    follows ([return] at the end of a line returns [undefined]). *)
Fixpoint return_goes_on (s : string) : bool :=
  match s with
  | EmptyString => false
  | String c rest =>
      if Ascii.eqb c " " || Ascii.eqb c "009" then return_goes_on rest
      else negb (MiniJS.is_line_terminator c || Ascii.eqb c "/")
  end.

(** The operators and punctuation of the fragment at the start of
    [String c rest], and what follows; [None] for other characters and for
    operators of JavaScript that start in the same way. *)
Definition lex_symbol (c : ascii) (rest : string) : option (string * string) :=
  let single := Some (String c EmptyString, rest) in
  let not_before (l : list ascii) (r : option (string * string)) :=
    match rest with
    | String d _ => if bool_decide (d ∈ l) then None else r
    | EmptyString => r
    end in
  if bool_decide (c ∈ ["("; ")"; "{"; "}"; ";"; ","; ":"]%char) then single
  else if Ascii.eqb c "." then
    match rest with
    | String d _ => if MiniJS.is_digit d || Ascii.eqb d "." then None else single
    | EmptyString => single
    end
  else if Ascii.eqb c "-" then not_before ["-"; "="]%char single
  else if Ascii.eqb c "=" then
    match rest with
    | String "=" (String "=" (String "=" _)) => None
    | String "=" (String "=" r) => Some ("===", r)
    | String "=" _ => None
    | String ">" _ => None
    | _ => single
    end
  else if Ascii.eqb c "!" then
    match rest with
    | String "=" (String "=" (String "=" _)) => None
    | String "=" (String "=" r) => Some ("!==", r)
    | String "=" _ => None
    | _ => single
    end
  else if Ascii.eqb c ">" then
    match rest with
    | String "=" (String "=" _) => None
    | String "=" r => Some (">=", r)
    | String ">" _ => None
    | _ => single
    end
  else if Ascii.eqb c "<" then
    match rest with
    | String "=" (String "=" _) => None
    | String "=" r => Some ("<=", r)
    | String "<" _ => None
    | _ => single
    end
  else if Ascii.eqb c "&" then
    match rest with
    | String "&" (String "=" _) => None
    | String "&" (String "&" _) => None
    | String "&" r => Some ("&&", r)
    | _ => None
    end
  else if Ascii.eqb c "|" then
    match rest with
    | String "|" (String "=" _) => None
    | String "|" (String "|" _) => None
    | String "|" r => Some ("||", r)
    | _ => None
    end
  else None.

Fixpoint tokenize (fuel : nat) (s : string) : option (list token) :=
  match fuel with
  | O => None
  | S fuel =>
      match s with
      | EmptyString => Some []
      | String c rest =>
          if MiniJS.is_space c then tokenize fuel rest
          else if Ascii.eqb c "/" then
            match rest with
            | String "/" rest => tokenize fuel (skip_line rest)
            | _ => None
            end
          else if Ascii.eqb c MiniJS.squote || Ascii.eqb c MiniJS.dquote then
            match MiniJS.lex_string c rest with
            | MiniJS.LexOk value rest => cons (TString value) <$> tokenize fuel rest
            | _ => None
            end
          else if MiniJS.is_ident_start c then
            let '(name, rest) := MiniJS.span MiniJS.is_ident_part s in
            if String.eqb name "return" && negb (return_goes_on rest)
            then None
            else cons (TName name) <$> tokenize fuel rest
          else if MiniJS.is_digit c then
            let '(digits, rest) := MiniJS.span MiniJS.is_digit s in
            if negb (MiniJS.decimal_literal digits) then None
            else
              match rest with
              | String d _ =>
                  if MiniJS.is_ident_part d || Ascii.eqb d "." then None
                  else cons (TNumber (MiniJS.digits_value digits))
                         <$> tokenize fuel rest
              | EmptyString => Some [TNumber (MiniJS.digits_value digits)]
              end
          else
            '(sym, rest) ← lex_symbol c rest;
            cons (TSym sym) <$> tokenize fuel rest
      end
  end.

Definition js_tokens (text : string) : option (list token) :=
  tokenize (S (String.length text)) text.

(** The script stands in a [script] element of the page: [</] or [<!]
    in it may end the element or open a comment when the page is parsed,
    and a character outside ASCII, or the character 0, reaches the script
    as the parser and the encoding of the page decide. *)
Fixpoint html_safe (text : string) : bool :=
  match text with
  | EmptyString => true
  | String c rest =>
      let n := nat_of_ascii c in
      ((0 <? n) && (n <? 128))%nat
      && match rest with
         | String d _ =>
             negb (Ascii.eqb c "<" && (Ascii.eqb d "/" || Ascii.eqb d "!"))
         | EmptyString => true
         end
      && html_safe rest
  end.

(** *** The fragment *)

Inductive dom_check :=
| CheckVisible (selector : string)
| CheckHidden (selector : string)
| CheckClass (selector class_name : string)
| CheckText (selector text : string).

Inductive binop := StrictEq | StrictNe | Lt | Le | Gt | Ge | And | Or.

(** Expressions; the literal [None] is [undefined]. *)
Inductive expr :=
| ELit (v : option value)
| EVar (x : string)
| EMember (e : expr) (name : string)
| ENot (e : expr)
| EBin (op : binop) (a b : expr)
| ECheck (c : dom_check).

(** What is returned: a number, or [currentTrackedState]. *)
Inductive returned := RNumber (z : Z) | RTracked.

(** The body of a [try { ... } catch(e) { }]: lines
    [const x = findVariable('name');], then at most one
    [if (test) return r;]. *)
Record try_body := TryBody {
  consts : list (string * string);
  test : option (expr * returned)
}.

(** The statements of the function body. *)
Inductive item :=
| ITry (body : try_body)
| IReturn (r : returned).

(** Words that are not read as the name of a constant: the reserved words
    of JavaScript, the words that are reserved in some places, the
    literals, and the names the generated function itself refers to. *)
Definition not_constant_names : list string :=
  ["break"; "case"; "catch"; "class"; "const"; "continue"; "debugger";
   "default"; "delete"; "do"; "else"; "enum"; "export"; "extends"; "false";
   "finally"; "for"; "function"; "if"; "import"; "in"; "instanceof"; "new";
   "null"; "return"; "super"; "switch"; "this"; "throw"; "true"; "try";
   "typeof"; "var"; "void"; "while"; "with"; "let"; "static"; "yield";
   "await"; "async"; "implements"; "interface"; "package"; "private";
   "protected"; "public"; "of"; "get"; "set"; "arguments"; "eval";
   "undefined"; "NaN"; "Infinity"; "findVariable"; "checkVisible";
   "checkHidden"; "checkClass"; "checkText"; "currentTrackedState"].

Definition constant_name (x : string) : bool :=
  bool_decide (x ∉ not_constant_names).

Definition comparison (sym : string) : option binop :=
  if String.eqb sym "===" then Some StrictEq
  else if String.eqb sym "!==" then Some StrictNe
  else if String.eqb sym "<" then Some Lt
  else if String.eqb sym "<=" then Some Le
  else if String.eqb sym ">" then Some Gt
  else if String.eqb sym ">=" then Some Ge
  else None.

(** Expressions, by precedence: [||], then [&&], then one comparison, then
    [!], then member access, then literals, names, calls of the four DOM
    helpers with literal arguments, and parentheses. An expression that
    JavaScript reads with other operators, or groups in another way, is
    not read. *)
Fixpoint member_tail (a : expr) (toks : list token)
  : option (expr * list token) :=
  match toks with
  | TSym "." :: toks =>
      match toks with
      | TName name :: toks => member_tail (EMember a name) toks
      | _ => None
      end
  | TSym "(" :: _ => None                           (* a call *)
  | TString _ :: _ | TNumber _ :: _ | TName _ :: _ => None
  | _ => Some (a, toks)
  end.

Fixpoint parse_or (fuel : nat) (toks : list token)
  : option (expr * list token) :=
  match fuel with
  | O => None
  | S fuel => '(a, toks) ← parse_and fuel toks; or_tail fuel a toks
  end
with or_tail (fuel : nat) (a : expr) (toks : list token)
  : option (expr * list token) :=
  match fuel with
  | O => None
  | S fuel =>
      match toks with
      | TSym "||" :: toks =>
          '(b, toks) ← parse_and fuel toks; or_tail fuel (EBin Or a b) toks
      | _ => Some (a, toks)
      end
  end
with parse_and (fuel : nat) (toks : list token)
  : option (expr * list token) :=
  match fuel with
  | O => None
  | S fuel => '(a, toks) ← parse_comparison fuel toks; and_tail fuel a toks
  end
with and_tail (fuel : nat) (a : expr) (toks : list token)
  : option (expr * list token) :=
  match fuel with
  | O => None
  | S fuel =>
      match toks with
      | TSym "&&" :: toks =>
          '(b, toks) ← parse_comparison fuel toks;
          and_tail fuel (EBin And a b) toks
      | _ => Some (a, toks)
      end
  end
with parse_comparison (fuel : nat) (toks : list token)
  : option (expr * list token) :=
  match fuel with
  | O => None
  | S fuel =>
      '(a, toks) ← parse_unary fuel toks;
      match toks with
      | TSym sym :: toks' =>
          match comparison sym with
          | Some op =>
              '(b, toks) ← parse_unary fuel toks';
              match toks with
              | TSym sym' :: _ =>
                  match comparison sym' with
                  | Some _ => None
                  | None => Some (EBin op a b, toks)
                  end
              | _ => Some (EBin op a b, toks)
              end
          | None => Some (a, toks)
          end
      | _ => Some (a, toks)
      end
  end
with parse_unary (fuel : nat) (toks : list token)
  : option (expr * list token) :=
  match fuel with
  | O => None
  | S fuel =>
      match toks with
      | TSym "!" :: toks => '(a, toks) ← parse_unary fuel toks; Some (ENot a, toks)
      | _ => '(a, toks) ← parse_primary fuel toks; member_tail a toks
      end
  end
with parse_primary (fuel : nat) (toks : list token)
  : option (expr * list token) :=
  match fuel with
  | O => None
  | S fuel =>
      match toks with
      | TNumber n :: toks => Some (ELit (Some (VInt n)), toks)
      | TSym "-" :: TNumber n :: toks => Some (ELit (Some (VInt (- n))), toks)
      | TString s :: toks => Some (ELit (Some (VStr s)), toks)
      | TSym "(" :: toks =>
          '(a, toks) ← parse_or fuel toks;
          match toks with
          | TSym ")" :: toks => Some (a, toks)
          | _ => None
          end
      | TName "checkVisible" :: TSym "(" :: TString s :: TSym ")" :: toks =>
          Some (ECheck (CheckVisible s), toks)
      | TName "checkHidden" :: TSym "(" :: TString s :: TSym ")" :: toks =>
          Some (ECheck (CheckHidden s), toks)
      | TName "checkClass" :: TSym "(" :: TString s :: TSym ","
          :: TString cl :: TSym ")" :: toks =>
          Some (ECheck (CheckClass s cl), toks)
      | TName "checkText" :: TSym "(" :: TString s :: TSym ","
          :: TString text :: TSym ")" :: toks =>
          Some (ECheck (CheckText s text), toks)
      | TName name :: toks =>
          if String.eqb name "true" then Some (ELit (Some (VBool true)), toks)
          else if String.eqb name "false"
          then Some (ELit (Some (VBool false)), toks)
          else if String.eqb name "null" then Some (ELit (Some VNull), toks)
          else if String.eqb name "undefined" then Some (ELit None, toks)
          else if constant_name name then Some (EVar name, toks)
          else None
      | _ => None
      end
  end.

Definition expression_fuel (toks : list token) : nat :=
  8 * length toks + 8.

Definition parse_expression (toks : list token)
  : option (expr * list token) :=
  parse_or (expression_fuel toks) toks.

Definition parse_returned (toks : list token)
  : option (returned * list token) :=
  match toks with
  | TNumber n :: TSym ";" :: toks => Some (RNumber n, toks)
  | TSym "-" :: TNumber n :: TSym ";" :: toks => Some (RNumber (- n), toks)
  | TName "currentTrackedState" :: TSym ";" :: toks => Some (RTracked, toks)
  | _ => None
  end.

(** The lines [const x = findVariable('name');] *)
Fixpoint parse_consts (fuel : nat) (toks : list token)
  : option (list (string * string) * list token) :=
  match fuel with
  | O => None
  | S fuel =>
      match toks with
      | TName "const" :: TName x :: TSym "=" :: TName "findVariable"
          :: TSym "(" :: TString name :: TSym ")" :: TSym ";" :: toks =>
          if constant_name x
          then '(l, toks) ← parse_consts fuel toks; Some ((x, name) :: l, toks)
          else None
      | TName "const" :: _ => None
      | _ => Some ([], toks)
      end
  end.

(** [if (test) return r;], or nothing *)
Definition parse_test (toks : list token)
  : option (option (expr * returned) * list token) :=
  match toks with
  | TName "if" :: TSym "(" :: toks =>
      '(e, toks) ← parse_expression toks;
      match toks with
      | TSym ")" :: TName "return" :: toks =>
          '(r, toks) ← parse_returned toks; Some (Some (e, r), toks)
      | _ => None
      end
  | _ => Some (None, toks)
  end.

(** [try { consts test } catch(e) { }] *)
Definition parse_try (toks : list token) : option (try_body * list token) :=
  match toks with
  | TName "try" :: TSym "{" :: toks =>
      '(consts, toks) ← parse_consts (S (length toks)) toks;
      guard (NoDup consts.*1);;
      '(test, toks) ← parse_test toks;
      match toks with
      | TSym "}" :: TName "catch" :: TSym "(" :: TName e :: TSym ")"
          :: TSym "{" :: TSym "}" :: toks =>
          if constant_name e then Some (TryBody consts test, toks) else None
      | _ => None
      end
  | _ => None
  end.

Fixpoint parse_items (fuel : nat) (toks : list token)
  : option (list item * list token) :=
  match fuel with
  | O => None
  | S fuel =>
      match toks with
      | TName "try" :: _ =>
          '(body, toks) ← parse_try toks;
          '(l, toks) ← parse_items fuel toks;
          Some (ITry body :: l, toks)
      | TName "return" :: toks =>
          '(r, toks) ← parse_returned toks;
          '(l, toks) ← parse_items fuel toks;
          Some (IReturn r :: l, toks)
      | _ => Some ([], toks)
      end
  end.

(** [function getCurrentState() { items }] and nothing else *)
Definition parse_function (toks : list token) : option (list item) :=
  match toks with
  | TName "function" :: TName "getCurrentState" :: TSym "(" :: TSym ")"
      :: TSym "{" :: toks =>
      '(items, toks) ← parse_items (S (length toks)) toks;
      match toks with
      | [TSym "}"] => Some items
      | _ => None
      end
  | _ => None
  end.

(** The entries [number: document.getElementById('...'),] of an object *)
Fixpoint parse_entries (fuel : nat) (toks : list token)
  : option (list token) :=
  match fuel with
  | O => None
  | S fuel =>
      match toks with
      | TNumber _ :: TSym ":" :: TName "document" :: TSym "."
          :: TName "getElementById" :: TSym "(" :: TString _ :: TSym ")"
          :: TSym "," :: toks => parse_entries fuel toks
      | _ => Some toks
      end
  end.

(** [stateSegments = { entries };] *)
Definition reads_stateSegments (toks : list token) : bool :=
  match toks with
  | TName "stateSegments" :: TSym "=" :: TSym "{" :: toks =>
      match parse_entries (S (length toks)) toks with
      | Some [TSym "}"; TSym ";"] => true
      | _ => false
      end
  | _ => false
  end.

(** The statements of [getCurrentState] as JavaScript reads them, when
    the two texts are within the fragment. *)
Definition read_text (segments function : string) : option (list item) :=
  guard (html_safe segments && html_safe function = true);;
  toks ← js_tokens segments;
  guard (reads_stateSegments toks = true);;
  toks ← js_tokens function;
  parse_function toks.

(** The function of the script generated for a schema, when there is a
    script and it is within the fragment. *)
Definition read_script (state_list : list state_def) : option (list item) :=
  '(segments, function) ← generate_tracking_js state_list;
  guard (forallb html_safe (state_list ≫= dumped) = true);;
  read_text segments function.

(** *** The page the generated code runs in *)

(** What the code reads off an element found by [querySelector]. *)
Record element := Element {
  el_display : string;           (* getComputedStyle(el).display *)
  el_visibility : string;        (* getComputedStyle(el).visibility *)
  el_offsetParent : bool;        (* el.offsetParent !== null *)
  el_classList : list string;
  el_textContent : string
}.

Record context := Context {
  (** [findVariable(name)]; [None] is [undefined]. An object is the list
      of its own properties, an array the list of its elements. *)
  findVariable : string → option value;
  (** [document.querySelector(selector)]: [None] when it throws (a
      malformed selector), [Some None] when it returns [null]. *)
  querySelector : string → option (option element)
}.

Definition checkVisible (ctx : context) (selector : string) : option bool :=
  el ← querySelector ctx selector;
  match el with
  | None => Some false
  | Some el =>
      Some (negb (String.eqb (el_display el) "none")
            && negb (String.eqb (el_visibility el) "hidden")
            && el_offsetParent el
            && negb (bool_decide ("hidden" ∈ el_classList el)))
  end.

Definition checkHidden (ctx : context) (selector : string) : option bool :=
  el ← querySelector ctx selector;
  match el with
  | None => Some true
  | Some el =>
      Some (String.eqb (el_display el) "none"
            || String.eqb (el_visibility el) "hidden"
            || negb (el_offsetParent el)
            || bool_decide ("hidden" ∈ el_classList el))
  end.

Definition checkClass (ctx : context) (selector class_name : string)
  : option bool :=
  el ← querySelector ctx selector;
  match el with
  | None => Some false
  | Some el => Some (bool_decide (class_name ∈ el_classList el))
  end.

Definition checkText (ctx : context) (selector text : string) : option bool :=
  el ← querySelector ctx selector;
  match el with
  | None => Some false
  | Some el => Some (includes (el_textContent el) text)
  end.

Definition run_check (ctx : context) (c : dom_check) : option bool :=
  match c with
  | CheckVisible s => checkVisible ctx s
  | CheckHidden s => checkHidden ctx s
  | CheckClass s cl => checkClass ctx s cl
  | CheckText s t => checkText ctx s t
  end.

(** *** Evaluation *)

(** The value of an expression, an exception, or no meaning in the
    fragment. *)
Inductive evaluation :=
| Value (v : option value)
| Raises
| NoMeaning.

(** [if (v)] *)
Definition js_truthy (v : option value) : bool :=
  match v with
  | None | Some VNull => false
  | Some (VBool b) => b
  | Some (VInt z) => negb (z =? 0)
  | Some (VStr s) => negb (String.eqb s EmptyString)
  | Some (VList _) | Some (VDict _) => true
  end.

(** [a === b]; two objects are the same or not by their identity, which a
    value does not tell. *)
Definition strict_equal (a b : option value) : option bool :=
  match a, b with
  | Some (VList _), Some (VList _) | Some (VList _), Some (VDict _)
  | Some (VDict _), Some (VList _) | Some (VDict _), Some (VDict _) => None
  | None, None | Some VNull, Some VNull => Some true
  | Some (VBool x), Some (VBool y) => Some (Bool.eqb x y)
  | Some (VInt x), Some (VInt y) => Some (x =? y)
  | Some (VStr x), Some (VStr y) => Some (String.eqb x y)
  | _, _ => Some false
  end.

(** [a < b] and the like on numbers; [undefined] compares as NaN. *)
Definition compare_numbers (op : Z → Z → bool) (a b : option value)
  : option bool :=
  match a, b with
  | Some (VInt x), Some (VInt y) => Some (op x y)
  | None, None | None, Some (VInt _) | Some (VInt _), None => Some false
  | _, _ => None
  end.

(** The names every object has from its prototype. *)
Definition prototype_names : list string :=
  ["constructor"; "toString"; "toLocaleString"; "valueOf";
   "hasOwnProperty"; "isPrototypeOf"; "propertyIsEnumerable"; "__proto__";
   "__defineGetter__"; "__defineSetter__"; "__lookupGetter__";
   "__lookupSetter__"].

(** [v.name] *)
Definition member (v : option value) (name : string) : evaluation :=
  match v with
  | None | Some VNull => Raises                    (* a TypeError *)
  | Some (VDict d) =>
      match dict_get d name with
      | Some w => Value (Some w)
      | None =>
          if bool_decide (name ∈ prototype_names) then NoMeaning
          else Value None
      end
  | Some (VList l) =>
      if String.eqb name "length" then Value (Some (VInt (Z.of_nat (length l))))
      else NoMeaning
  | Some (VStr s) =>
      if String.eqb name "length"
      then Value (Some (VInt (Z.of_nat (String.length s))))
      else NoMeaning
  | Some (VBool _) | Some (VInt _) => NoMeaning
  end.

Definition of_bool (b : option bool) : evaluation :=
  match b with
  | Some b => Value (Some (VBool b))
  | None => NoMeaning
  end.

(** [env] holds the constants in scope, the latest first. A name that is
    not a constant would be looked up among the globals of the page, which
    the fragment does not do. *)
Fixpoint eval (ctx : context) (env : list (string * option value)) (e : expr)
  : evaluation :=
  match e with
  | ELit v => Value v
  | EVar x =>
      match list_find (λ b, b.1 = x) env with
      | Some (_, b) => Value b.2
      | None => NoMeaning
      end
  | EMember a name =>
      match eval ctx env a with
      | Value v => member v name
      | r => r
      end
  | ENot a =>
      match eval ctx env a with
      | Value v => Value (Some (VBool (negb (js_truthy v))))
      | r => r
      end
  | EBin And a b =>
      match eval ctx env a with
      | Value v => if js_truthy v then eval ctx env b else Value v
      | r => r
      end
  | EBin Or a b =>
      match eval ctx env a with
      | Value v => if js_truthy v then Value v else eval ctx env b
      | r => r
      end
  | EBin op a b =>
      match eval ctx env a with
      | Value v =>
          match eval ctx env b with
          | Value w =>
              of_bool
                match op with
                | StrictEq => strict_equal v w
                | StrictNe => negb <$> strict_equal v w
                | Lt => compare_numbers Z.ltb v w
                | Le => compare_numbers Z.leb v w
                | Gt => compare_numbers Z.gtb v w
                | Ge => compare_numbers Z.geb v w
                | And | Or => None
                end
          | r => r
          end
      | r => r
      end
  | ECheck c =>
      match run_check ctx c with
      | Some b => Value (Some (VBool b))
      | None => Raises
      end
  end.

(** How an [if (test) return] went. *)
Inductive outcome := Holds | Fails | Throws | Unknown.

#[global] Instance outcome_eq_dec : EqDecision outcome.
Proof. solve_decision. Defined.

Definition outcome_of (r : evaluation) : outcome :=
  match r with
  | Value v => if js_truthy v then Holds else Fails
  | Raises => Throws
  | NoMeaning => Unknown
  end.

(** The constants of a [try] block (their names are distinct), as they
    are in scope at its [if]. *)
Definition scope (ctx : context) (consts : list (string * string))
  : list (string * option value) :=
  (λ c, (c.1, findVariable ctx c.2)) <$> consts.

Definition run_test (ctx : context) (body : try_body) : option outcome :=
  (λ t, outcome_of (eval ctx (scope ctx (consts body)) t.1)) <$> test body.

(** What [getCurrentState()] gives. *)
Inductive answer :=
| Returned (z : Z)
| ReturnedUndefined        (* the end of the function is reached *)
| OutsideFragment          (* an evaluation without meaning in the fragment *)
| NotRead.                 (* the script is outside the fragment *)

Definition value_of (currentTrackedState : Z) (r : returned) : Z :=
  match r with
  | RNumber z => z
  | RTracked => currentTrackedState
  end.

(** The statements in order; [n] numbers the [try] statements; the log
    tells which [if]s were evaluated, and how they went. *)
Fixpoint run_items (ctx : context) (currentTrackedState : Z) (n : nat)
    (items : list item) : answer * list (nat * outcome) :=
  match items with
  | [] => (ReturnedUndefined, [])
  | IReturn r :: _ => (Returned (value_of currentTrackedState r), [])
  | ITry body :: items =>
      match run_test ctx body with
      | None => run_items ctx currentTrackedState (S n) items
      | Some Holds =>
          (Returned (value_of currentTrackedState
                              (default RTracked (snd <$> test body))),
           [(n, Holds)])
      | Some Unknown => (OutsideFragment, [(n, Unknown)])
      | Some r =>
          let '(a, log) := run_items ctx currentTrackedState (S n) items in
          (a, (n, r) :: log)
      end
  end.

Definition run_script (state_list : list state_def) (ctx : context)
    (currentTrackedState : Z) : answer * list (nat * outcome) :=
  match read_script state_list with
  | Some items => run_items ctx currentTrackedState 0 items
  | None => (NotRead, [])
  end.

Definition getCurrentState (state_list : list state_def) (ctx : context)
    (currentTrackedState : Z) : answer :=
  (run_script state_list ctx currentTrackedState).1.


Definition condition_probed (i : nat) (log : list (nat * outcome)) : Prop :=
  ∃ r, (2 * i, r)%nat ∈ log.


(** *** What the generator means *)

(** A condition as JavaScript reads it when it stands alone. *)
Definition parse_condition (condition : string) : option expr :=
  toks ← js_tokens condition;
  '(e, rest) ← parse_expression toks;
  match rest with
  | [] => Some e
  | _ => None
  end.

Definition checks (state : state_def) : list dom_check :=
  (CheckVisible <$> st_visible_elements state)
  ++ (CheckHidden <$> st_hidden_elements state)
  ++ ((λ i, CheckClass i.1 i.2) <$> st_has_class state)
  ++ ((λ i, CheckText i.1 i.2) <$> st_text_content state).

(** [c1 && c2 && ...] *)
Definition conjunction (c : dom_check) (l : list dom_check) : expr :=
  foldl (λ e c, EBin And e (ECheck c)) (ECheck c) l.

(** The two [try] statements meant for a state: the constants and the
    [if] of its condition, then the [if] of its DOM checks. *)
Definition intended_state (state : state_def) : option (list item) :=
  let condition := default EmptyString (st_detection_condition state) in
  variable_based ←
    (if decide (condition = EmptyString) then Some (TryBody [] None)
     else e ← parse_condition condition;
          Some (TryBody ((λ v, (v, v)) <$> condition_variables condition)
                        (Some (e, RNumber (st_id state)))));
  Some [ITry variable_based;
        ITry (TryBody []
                match checks state with
                | [] => None
                | c :: l => Some (conjunction c l, RNumber (st_id state))
                end)].

Definition intended (state_list : list state_def) : option (list item) :=
  blocks ← mapM intended_state state_list;
  Some (concat blocks ++ [IReturn RTracked]).

(** The script generated for the schema is read as it is meant: no text
    of the schema ends its comment, its string or its condition, or
    leaves the fragment. *)
Definition reads_as_intended (state_list : list state_def) : Prop :=
  ∃ items, intended state_list = Some items
           ∧ read_script state_list = Some items.








(** *** A sample schema and a sample page *)









(** A state whose name goes on, after a line break, with a statement. *)
Definition injected_state : state_def :=
  {| st_id := 1;
     st_name := Some ("Feed" +:+ newline +:+ "return 42;");
     st_detection_condition := Some "stage === 1";
     st_visible_elements := []; st_hidden_elements := [];
     st_has_class := []; st_text_content := [];
     st_interactive_elements := [] |}.

(** A state with a quote in a selector, and a state whose condition uses
    [typeof]. *)
Definition quoted_selector_state : state_def :=
  {| st_id := 3; st_name := Some "Acceleration";
     st_detection_condition := None;
     st_visible_elements := ["[data-mode='fast']"]; st_hidden_elements := [];
     st_has_class := []; st_text_content := [];
     st_interactive_elements := [] |}.

Definition typeof_state : state_def :=
  {| st_id := 4; st_name := Some "Hell Mode";
     st_detection_condition := Some "typeof isHellMode !== 'undefined'";
     st_visible_elements := []; st_hidden_elements := [];
     st_has_class := []; st_text_content := [];
     st_interactive_elements := [] |}.

End Detector.

(** ** Session recorder (record_session.py) *)

Module Recorder.
Import Detector.

(** A stage snapshot: the captured variables, the ['dom'] entry and the
    ['timestamp'] entry. *)
Record snapshot := Snapshot {
  snap_vars : gmap string value;
  snap_dom : option value;
  snap_timestamp : option Q
}.

(** The module-level constants. [STATES_SCHEMA = None]: no
    states_schema.json was loaded. *)
Record environment := Environment {
  SNAPSHOTS_AVAILABLE : bool;
  STATES_SCHEMA : option (list state_def)
}.

(** The state that a poll works with, as Python holds it: an integer, or
    the boolean that [page.evaluate] gave for [stage]. It is compared, and
    looked up in a dictionary, by its value as a number ([True == 1]); it
    is printed as what it is. *)
Inductive stage_key := KInt (z : Z) | KBool (b : bool).

Definition key_value (k : stage_key) : Z :=
  match k with KInt z => z | KBool b => Z.b2z b end.

(** [f'{k}'] *)
Definition key_text (k : stage_key) : string :=
  match k with
  | KInt z => pretty z
  | KBool true => "True"
  | KBool false => "False"
  end.

(** [self.snapshots] is a dictionary: an entry is found by the value of
    its key, and holds the key as it was when the entry was made. *)
Record recorder := RecorderState {
  capture_snapshots : bool;
  start_time : option Q;
  snapshots : gmap Z (stage_key * snapshot);
  last_stage : stage_key
}.

(** [SessionRecorder.__init__] *)
Definition init (capture_snapshots : bool) : recorder :=
  {| capture_snapshots := capture_snapshots; start_time := None;
     snapshots := ∅; last_stage := KInt (-1) |}.

(** The test made for one state; [None] when an exception is raised
    (and swallowed by [except: continue]). *)
Definition state_test (page : page) (state_id : Z) : option bool :=
  if state_id =? 5 then
    notif_count ← evaluate_or page "notificationCount" (VInt 0);
    overlay_visible ← evaluate_flex page "floodOverlay";
    enough ← ge_int notif_count 150;
    Some (enough && truthy overlay_visible)
  else if state_id =? 4 then
    stage ← evaluate_or page "stage" (VInt (-1));
    is_hell ← evaluate_or page "isHellMode" (VBool false);
    Some (eq_int stage 4 && truthy is_hell)
  else
    stage ← evaluate_or page "stage" (VInt (-1));
    Some (eq_int stage state_id).

(** The loop of [_detect_current_state]. A state without a
    ['detection_condition'] raises [KeyError], caught by the outer
    [except], which returns -1. *)
Fixpoint detect_loop (page : page) (states : list state_def) : Z :=
  match states with
  | [] => -1
  | state :: states =>
      match st_detection_condition state with
      | None => -1
      | Some _ =>
          match state_test page (st_id state) with
          | Some true => st_id state
          | _ => detect_loop page states
          end
      end
  end.

Definition _detect_current_state (env : environment) (page : page) : Z :=
  match STATES_SCHEMA env with
  | None => -1
  | Some states => detect_loop page states
  end.

(** The loop over [config['variables']] of [_capture_snapshot]. *)
Definition capture_variable (page : page) (snapshot : gmap string value)
    (var_name : string) : gmap string value :=
  match evaluate_or page var_name VNull with
  | None | Some VNull => snapshot
  | Some value => <[var_name := value]> snapshot
  end.

(** [time.time() - self.start_time if self.start_time else 0] *)
Definition since_start (r : recorder) (now : Q) : Q :=
  match start_time r with
  | Some t => if Qeq_bool t 0 then 0%Q else (now - t)%Q
  | None => 0%Q
  end.

Definition _capture_snapshot (env : environment) (r : recorder)
    (page : page) (now : Q) : option snapshot :=
  if negb (capture_snapshots r) || negb (SNAPSHOTS_AVAILABLE env) then None
  else Some {| snap_vars := foldl (capture_variable page) ∅ config_variables;
               snap_dom := evaluate_innerHTML page content_id;
               snap_timestamp := Some (since_start r now) |}.

(** The state the poll works with; [None] when an exception is raised
    before the comparisons are done. Without a schema the [stage] variable
    of the page is read: a number or a boolean is compared with 0, another
    value raises [TypeError] there. *)
Definition current_state (env : environment) (page : page)
  : option stage_key :=
  match STATES_SCHEMA env with
  | Some _ => Some (KInt (_detect_current_state env page))
  | None =>
      match evaluate_or page "stage" (VInt (-1)) with
      | Some (VInt z) => Some (KInt z)
      | Some (VBool b) => Some (KBool b)
      | _ => None
      end
  end.

(** [get_stage_info(stage_num)['name']] *)
Definition get_stage_info (stage_num : stage_key) : string :=
  match list_find (λ stage, stage.1 = key_value stage_num) stage_names with
  | Some (_, stage) => stage.2
  | None => "Stage " +:+ key_text stage_num
  end.

(** The name that is printed when a snapshot is captured; [None] is the
    [KeyError] raised for a state of the schema that has no name. *)
Definition state_name (env : environment) (current_state : stage_key)
  : option string :=
  match STATES_SCHEMA env with
  | Some states =>
      match list_find (λ s, st_id s = key_value current_state) states with
      | Some (_, state_info) => st_name state_info
      | None => Some ("State " +:+ key_text current_state)
      end
  | None => Some (get_stage_info current_state)
  end.

(** [self.snapshots[k] = s]: an entry whose key has the value of [k] keeps
    its key. *)
Definition store (m : gmap Z (stage_key * snapshot))
    (item : stage_key * snapshot) : gmap Z (stage_key * snapshot) :=
  let k := key_value item.1 in
  <[k := (default item.1 (fst <$> m !! k), item.2)]> m.

(** An exception raised after the snapshot is stored, by the lookup of
    the name, leaves [self.last_stage] as it was: the whole body is in a
    [try] whose handler does nothing. *)
Definition _check_stage_change (env : environment) (page : page) (now : Q)
    (r : recorder) : recorder :=
  if negb (capture_snapshots r) || negb (SNAPSHOTS_AVAILABLE env) then r
  else
    match current_state env page with
    | None => r
    | Some current_state =>
        if bool_decide (key_value current_state ≠ key_value (last_stage r))
           && (0 <=? key_value current_state)
        then
          match _capture_snapshot env r page now with
          | Some snapshot =>
              let snapshots := store (snapshots r) (current_state, snapshot) in
              {| capture_snapshots := capture_snapshots r;
                 start_time := start_time r;
                 snapshots := snapshots;
                 last_stage := match state_name env current_state with
                               | Some _ => current_state
                               | None => last_stage r
                               end |}
          | None =>
              {| capture_snapshots := capture_snapshots r;
                 start_time := start_time r;
                 snapshots := snapshots r;
                 last_stage := current_state |}
          end
        else r
    end.

(** The polling loop of [record]: one entry per tick, the page as it is
    at that tick and the clock. The loop ends when the page is gone or
    when [window.shouldStopRecording] is set. *)
Fixpoint poll (env : environment) (ticks : list (page * Q)) (r : recorder)
  : recorder :=
  match ticks with
  | [] => r
  | (page, now) :: ticks =>
      if pg_closed page then r
      else
        let r := _check_stage_change env page now r in
        if truthy (default (VBool false) (pg_vars page !! "shouldStopRecording"))
        then r
        else poll env ticks r
  end.

(** *** Saving *)

Record metadata := Metadata {
  md_session_id : string;
  stages_captured : nat;
  stage_numbers : list stage_key
}.

Inductive file :=
| SnapshotFile (s : snapshot)
| MetadataFile (m : metadata).

Definition snapshot_dir (session_id : string) : string :=
  "snapshots/" +:+ session_id.

(** [snapshot_dir / f'stage_{stage_num}.json'] *)
Definition stage_file (session_id : string) (stage_num : stage_key) : string :=
  snapshot_dir session_id +:+ "/stage_" +:+ key_text stage_num +:+ ".json".

Definition metadata_file (session_id : string) : string :=
  snapshot_dir session_id +:+ "/metadata.json".

Definition save_stage (session_id : string) (fs : gmap string file)
    (item : stage_key * snapshot) : gmap string file :=
  if 0 <=? key_value item.1
  then <[stage_file session_id item.1 := SnapshotFile item.2]> fs
  else fs.

(** The items of [self.snapshots]; the files written for them do not
    depend on their order. *)
Definition items (r : recorder) : list (stage_key * snapshot) :=
  (map_to_list (snapshots r)).*2.

Definition key_le (a b : stage_key) : Prop := key_value a ≤ key_value b.

#[global] Instance key_le_dec : RelDecision key_le.
Proof. intros a b. unfold key_le. apply _. Defined.

Definition _save_snapshots (session_id : string) (r : recorder)
    (fs : gmap string file) : gmap string file :=
  if decide (snapshots r = ∅) then fs
  else
    let fs := foldl (save_stage session_id) fs (items r) in
    <[metadata_file session_id :=
        MetadataFile
          {| md_session_id := session_id;
             stages_captured := size (snapshots r);
             stage_numbers :=
               merge_sort key_le
                 (filter (λ s, 0 ≤ key_value s) (items r).*1) |}]> fs.

(** The recorder when the polling starts. *)
Definition started (start : Q) : recorder :=
  {| capture_snapshots := true; start_time := Some start;
     snapshots := ∅; last_stage := KInt (-1) |}.

(** A recording session with snapshots: poll, then save. *)
Definition record_and_save (env : environment) (session_id : string)
    (start : Q) (ticks : list (page * Q)) (fs : gmap string file)
  : gmap string file :=
  _save_snapshots session_id (poll env ticks (started start)) fs.

(** *** Entries into a state, told from what the polls detect *)


(** A state that can become the state last seen: it is not negative and
    its name can be printed. *)
Definition remembered (env : environment) (k : stage_key) : Prop :=
  0 ≤ key_value k ∧ is_Some (state_name env k).

#[global] Instance remembered_dec env k : Decision (remembered env k).
Proof. unfold remembered. apply _. Defined.




(** *** A sample session *)




(** Without a schema, on a page where [stage] is [true]. *)
Definition no_schema : environment :=
  {| SNAPSHOTS_AVAILABLE := true; STATES_SCHEMA := None |}.

Definition page_with_stage (stage : value) (html : string) : page :=
  {| pg_closed := false;
     pg_vars := {[ "stage" := stage ]};
     pg_nodes := {[ content_id := Node (Markup html) "block" ]} |}.

Definition sample_snapshot_of (stage : value) (html : string) (t : Q)
  : snapshot :=
  {| snap_vars := {[ "stage" := stage ]};
     snap_dom := Some (VStr html);
     snap_timestamp := Some t |}.



End Recorder.


(** ** Schema validation (state_analyzer.py) *)

Module Validator.

Definition required_fields : list string :=
  ["id"; "name"; "description"; "color_theme"].

(** [field in container]; [None] is a [TypeError] (the container is not
    iterable). *)
Definition contains (container : value) (field : string) : option bool :=
  match container with
  | VDict d => Some (bool_decide (is_Some (dict_get d field)))
  | VList l =>
      Some (existsb (λ v, match v with
                          | VStr s => String.eqb s field
                          | _ => false
                          end) l)
  | VStr s => Some (includes s field)
  | VNull | VBool _ | VInt _ => None
  end.

(** The inner loops: [False] as soon as a field is not in a state, or as
    soon as the test raises. *)
Definition state_has_fields (state : value) : bool :=
  forallb (λ field, match contains state field with
                    | Some true => true
                    | _ => false
                    end) required_fields.

Definition _validate_states_json (data : value) : bool :=
  match data with
  | VDict data =>
      match dict_get data "metadata", dict_get data "states" with
      | Some metadata, Some states =>
          match metadata with
          | VDict metadata =>
              match dict_get metadata "total_states" with
              | None => false
              | Some _ =>
                  match states with
                  | VList states =>
                      match states with
                      | [] => false
                      | _ => forallb state_has_fields states
                      end
                  | _ => false
                  end
              end
          | _ => false
          end
      | _, _ => false
      end
  | _ => false
  end.

(** The end of [detect_states], once the answer is parsed: [None] is the
    exception raised for an invalid structure. *)
Definition detect_states (states_data : value) : option value :=
  if _validate_states_json states_data then Some states_data else None.

(** The ['states'] of a schema and their ['id'] entries. *)
Definition states_of (data : value) : list value :=
  match data with
  | VDict data =>
      match dict_get data "states" with
      | Some (VList states) => states
      | _ => []
      end
  | _ => []
  end.

Definition id_of (state : value) : option value :=
  match state with
  | VDict state => dict_get state "id"
  | _ => None
  end.

Definition has_duplicate_id (data : value) : Prop :=
  ∃ i j state_i state_j id,
    i ≠ j ∧ states_of data !! i = Some state_i
    ∧ states_of data !! j = Some state_j
    ∧ id_of state_i = Some id ∧ id_of state_j = Some id.

(** A state object that lacks one of the required fields. *)
Definition lacks_field (state : value) : Prop :=
  ∃ d field, state = VDict d ∧ field ∈ required_fields
             ∧ dict_get d field = None.

(** *** Sample schemas *)

Definition sample_state (id : Z) (name : string) : value :=
  VDict [("id", VInt id); ("name", VStr name);
         ("description", VStr "a state"); ("color_theme", VDict [])].

Definition schema_of (states : list value) : value :=
  VDict [("metadata", VDict [("total_states", VInt (Z.of_nat (length states)))]);
         ("states", VList states)].

(** Two states that share the id 0. *)
Definition duplicate_schema : value :=
  schema_of [sample_state 0 "Initial"; sample_state 0 "Positive Hook"].

End Validator.


(** ** Stage restore (test_stage.py) *)

Module TestStage.
Import MiniJS Recorder.

(** *** Python text formatting *)

Definition hex_char (n : N) : ascii :=
  ascii_of_N (if (n <? 10)%N then 48 + n else 87 + n)%N.

Definition hex2 (c : ascii) : string :=
  let n := N_of_ascii c in
  String (hex_char (n / 16)) (String (hex_char (n mod 16)) EmptyString).

(** [s.replace(c, by)] for a one-character pattern. *)
Fixpoint replace (c : ascii) (by_ : string) (s : string) : string :=
  match s with
  | EmptyString => EmptyString
  | String a s =>
      (if Ascii.eqb a c then by_ else String a EmptyString)
      +:+ replace c by_ s
  end.

Definition has_char (c : ascii) (s : string) : bool :=
  existsb (Ascii.eqb c) (list_ascii_of_string s).

(** The body of a string in [json.dumps] (ensure_ascii). *)
Fixpoint json_escape (s : string) : string :=
  match s with
  | EmptyString => EmptyString
  | String c s =>
      let n := nat_of_ascii c in
      (if Ascii.eqb c dquote then String backslash (String dquote EmptyString)
       else if Ascii.eqb c backslash then "\\"
       else if Ascii.eqb c LF then "\n"
       else if Ascii.eqb c CR then "\r"
       else if Ascii.eqb c "009"%char then "\t"
       else if Ascii.eqb c "008"%char then "\b"
       else if Ascii.eqb c "012"%char then "\f"
       else if ((32 <=? n) && (n <=? 126))%nat then String c EmptyString
       else "\u00" +:+ hex2 c) +:+ json_escape s
  end.

Definition json_string (s : string) : string :=
  String dquote (json_escape s) +:+ String dquote EmptyString.

(** [json.dumps(value)] *)
Fixpoint json_dumps (v : value) : string :=
  match v with
  | VNull => "null"
  | VBool true => "true"
  | VBool false => "false"
  | VInt z => pretty z
  | VStr s => json_string s
  | VList l => "[" +:+ String.concat ", " (map json_dumps l) +:+ "]"
  | VDict d =>
      "{" +:+ String.concat ", "
                (map (λ kv, json_string kv.1 +:+ ": " +:+ json_dumps kv.2) d)
          +:+ "}"
  end.

(** The body of a string in [repr], between quotes [q]. *)
Fixpoint repr_escape (q : ascii) (s : string) : string :=
  match s with
  | EmptyString => EmptyString
  | String c s =>
      let n := nat_of_ascii c in
      (if Ascii.eqb c backslash then "\\"
       else if Ascii.eqb c q then String backslash (String q EmptyString)
       else if Ascii.eqb c LF then "\n"
       else if Ascii.eqb c CR then "\r"
       else if Ascii.eqb c "009"%char then "\t"
       else if ((n <? 32) || (127 <=? n) && (n <=? 160) || (n =? 173))%nat
       then "\x" +:+ hex2 c
       else String c EmptyString) +:+ repr_escape q s
  end.

Definition repr_string (s : string) : string :=
  let q := if has_char squote s && negb (has_char dquote s)
           then dquote else squote in
  String q (repr_escape q s) +:+ String q EmptyString.

(** [repr(value)] *)
Fixpoint repr (v : value) : string :=
  match v with
  | VNull => "None"
  | VBool true => "True"
  | VBool false => "False"
  | VInt z => pretty z
  | VStr s => repr_string s
  | VList l => "[" +:+ String.concat ", " (map repr l) +:+ "]"
  | VDict d =>
      "{" +:+ String.concat ", "
                (map (λ kv, repr_string kv.1 +:+ ": " +:+ repr kv.2) d)
          +:+ "}"
  end.

(** What an f-string puts for [{value}]. *)
Definition format (v : value) : string :=
  match v with
  | VStr s => s
  | _ => repr v
  end.

(** *** The restore script *)

(** The statement for one captured variable. *)
Definition variable_statement (var_name : string) (value : value) : string :=
  match value with
  | VStr s => var_name +:+ " = '" +:+ s +:+ "';"
  | VBool b => var_name +:+ " = " +:+ (if b then "true" else "false") +:+ ";"
  | VInt _ => var_name +:+ " = " +:+ format value +:+ ";"
  | VList _ => var_name +:+ " = " +:+ json_dumps value +:+ ";"
  | _ => var_name +:+ " = " +:+ json_dumps value +:+ ";"
  end.

(** The three [replace] calls made on the ['dom'] entry, in their order:
    the backslash is doubled, then the single quote and the line feed are
    written as escapes. *)
Definition escape_html (dom : string) : string :=
  replace LF "\n" (replace squote "\'" (replace backslash "\\" dom)).

Definition dom_statement (dom_html : string) : string :=
  "document.getElementById('" +:+ content_id +:+ "').innerHTML = '"
    +:+ dom_html +:+ "';".

Definition counter_statement (count : value) : string :=
  "document.getElementById('" +:+ counter_id +:+ "').textContent = "
    +:+ format count +:+ ";".

(** The list [restore_script]; [None] when building it raises (the
    ['dom'] entry is not a string). *)
Definition restore_script (snapshot : snapshot) : option (list string) :=
  let variables :=
    omap (λ var_name, variable_statement var_name <$> snap_vars snapshot !! var_name)
         config_variables in
  dom ← match snap_dom snapshot with
        | None => Some []
        | Some (VStr dom) => Some [dom_statement (escape_html dom)]
        | Some _ => None
        end;
  let counter :=
    option_list (counter_statement <$> snap_vars snapshot !! "notificationCount") in
  Some (variables ++ dom ++ counter).

Definition full_script (snapshot : snapshot) : option string :=
  String.concat (String LF EmptyString) <$> restore_script snapshot.

Inductive restore_result :=
| Restored (p : page)
| Raised (p : page)        (* an exception escapes; the page as left *)
| OutsideModel.

(** [page.evaluate(full_script)] *)
Definition evaluate (script : string) (p : page) : restore_result :=
  if pg_closed p then Raised p
  else match js_run script p with
       | Completed p => Restored p
       | SyntaxError => Raised p
       | RuntimeError p => Raised p
       | Unsupported => OutsideModel
       end.

Definition restore_state (p : page) (snapshot : snapshot) : restore_result :=
  match full_script snapshot with
  | None => Raised p
  | Some script => evaluate script p
  end.

(** The page a restore leaves behind. *)
Definition page_after (r : restore_result) : option page :=
  match r with
  | Restored p | Raised p => Some p
  | OutsideModel => None
  end.

(** What is observed of a page: the key variables, the fragment
    of the content container and the text of the counter. *)
Definition observe (p : page)
  : list (option value) * option content * option content :=
  ((λ name, pg_vars p !! name) <$> config_variables,
   nd_content <$> pg_nodes p !! content_id,
   nd_content <$> pg_nodes p !! counter_id).

(** [name = v] done on the page. *)
Definition set_var (p : page) (name : string) (v : value) : page :=
  {| pg_closed := pg_closed p; pg_vars := <[name := v]> (pg_vars p);
     pg_nodes := pg_nodes p |}.

(** What [escape_html] does to one character. *)
Definition escape_char (c : ascii) : string :=
  if Ascii.eqb c backslash then "\\"
  else if Ascii.eqb c squote then "\'"
  else if Ascii.eqb c LF then "\n"
  else String c EmptyString.

(** *** Sample snapshots and pages *)

Definition snapshot_of (vars : list (string * value)) (dom : option string)
  : snapshot :=
  {| snap_vars := list_to_map vars; snap_dom := VStr <$> dom;
     snap_timestamp := Some 0%Q |}.

Definition app_page (vars : list (string * value)) : page :=
  {| pg_closed := false; pg_vars := list_to_map vars;
     pg_nodes := {[ content_id := Node (Markup "<p>welcome</p>") "block";
                    counter_id := Node (Text "0") "block" ]} |}.

(** A string with an apostrophe. *)
Definition quoted_snapshot : snapshot :=
  snapshot_of [("stage", VStr "it's")] None.

(** A string that closes the literal and goes on with a statement. *)
Definition injected_snapshot : snapshot :=
  snapshot_of [("stage", VStr "a'; tapCount = tapCount + 1; '")] None.

(** A string that closes the literal and goes on with an expression
    that reads the variable [name] of the page. *)
Definition echo_string (name : string) : string := "' + " +:+ name +:+ " + '".

Definition echo_snapshot (name : string) : snapshot :=
  snapshot_of [("stage", VStr (echo_string name))] None.

(** The page such a snapshot was captured from. *)
Definition captured_page : page :=
  app_page [("stage", VStr (echo_string "stage"))].

(** A page that holds the string in a variable of its own. *)
Definition caption_page : page :=
  app_page [("stage", VInt 0); ("caption", VStr (echo_string "caption"))].

(** The snapshots whose script is made of statements that read no
    variable, or does not run at all (building it raises, or it is a
    syntax error). *)
Definition closed_script (snapshot : snapshot) : bool :=
  match full_script snapshot with
  | None => true
  | Some script =>
      match js_tokens script with
      | TokError => true
      | TokUnsupported => false
      | Tokens toks =>
          match parse toks with
          | None => false
          | Some stmts => forallb closed_stmt stmts
          end
      end
  end.

(** An ordinary snapshot. *)
Definition plain_snapshot : snapshot :=
  snapshot_of [("stage", VInt 2); ("notificationCount", VInt 17);
               ("isHellMode", VBool false); ("urgentTimers", VList [VInt 3; VInt 4])]
              (Some ("<div class='post'>it's" +:+ String MiniJS.LF "here</div>")).

Definition fresh_page : page :=
  app_page [("stage", VInt 0); ("notificationCount", VInt 0);
            ("tapCount", VInt 0)].

End TestStage.

(** * Theorems *)

(** ** Rational comparisons *)

Lemma Qltb_lt (a b : Q) : Qltb a b = true ↔ (a < b)%Q.
Proof.
  unfold Qltb. rewrite negb_true_iff, <- not_true_iff_false, Qle_bool_iff.
  split; [apply Qnot_le_lt | apply Qlt_not_le].
Qed.

Lemma Qltb_ge (a b : Q) : Qltb a b = false ↔ (b <= a)%Q.
Proof.
  unfold Qltb. rewrite negb_false_iff. apply Qle_bool_iff.
Qed.

(** ** Strings *)

Lemma string_app_length (s t : string) :
  String.length (s +:+ t) = (String.length s + String.length t)%nat.
Proof. induction s; simpl; [done | by f_equal]. Qed.

Lemma string_app_cons (c : ascii) (s t : string) :
  String c s +:+ t = String c (s +:+ t).
Proof. reflexivity. Qed.

Lemma string_app_nil_l (s : string) : EmptyString +:+ s = s.
Proof. reflexivity. Qed.

Lemma string_app_assoc (s t u : string) : (s +:+ t) +:+ u = s +:+ (t +:+ u).
Proof.
  induction s as [|c s IH]; [done|]. by rewrite !string_app_cons, IH.
Qed.


(** ** Script converter *)

Section ConverterFacts.
Import Converter.

Lemma convert_event_dropped st e :
  retained e = false → convert_event st e = st.
Proof.
  destruct st as [acts last], e as [[] t]; simpl; try discriminate; auto.
  intros H. apply negb_false_iff in H. by rewrite H.
Qed.

Lemma convert_event_retained acts last e :
  retained e = true →
  ∃ b w, action_of e = Some b ∧
    convert_event (acts, last) e = (acts ++ [Action b w], timestamp e).
Proof.
  destruct e as [[] t]; simpl; try discriminate; intros H.
  1,2: do 2 eexists; split; reflexivity.
  apply negb_true_iff in H. unfold action_of. simpl. rewrite H.
  do 2 eexists; split; reflexivity.
Qed.

Lemma action_of_retained e : is_Some (action_of e) ↔ retained e = true.
Proof.
  unfold action_of, retained.
  destruct e as [[] t]; simpl; rewrite ?is_Some_alt; try done.
  by destruct (is_modifier key).
Qed.

Lemma foldl_convert_filter st events :
  foldl convert_event st (filter (λ e, retained e = true) events)
  = foldl convert_event st events.
Proof.
  revert st. induction events as [|e events IH]; intros st; [done|].
  rewrite filter_cons. destruct (decide (retained e = true)) as [H|H]; simpl.
  - apply IH.
  - apply not_true_is_false in H. rewrite (convert_event_dropped _ _ H). apply IH.
Qed.

Lemma foldl_convert_bodies acts last events :
  map act_body (fst (foldl convert_event (acts, last) events))
  = map act_body acts ++ omap action_of events.
Proof.
  revert acts last. induction events as [|e events IH]; intros acts last.
  - simpl. by rewrite app_nil_r.
  - cbn [foldl omap list_omap]. destruct (retained e) eqn:Hr.
    + destruct (convert_event_retained acts last e Hr) as (b & w & Hb & ->).
      rewrite IH, Hb, map_app. simpl. by rewrite <- app_assoc.
    + rewrite (convert_event_dropped _ _ Hr), IH.
      destruct (action_of e) eqn:Ha; [|done].
      assert (retained e = true) by (apply action_of_retained; eauto). congruence.
Qed.

Lemma action_of_not_modifier e key :
  action_of e = Some (AKeypress key) → is_modifier key = false.
Proof.
  unfold action_of. destruct e as [[] t]; simpl; try discriminate.
  destruct (is_modifier key0) eqn:Hm; [discriminate|]. by intros [= <-].
Qed.

(** C2: on the recording [click@0.0, mousemove@0.05, mousemove@0.1,
    click@0.5] the converter returns two clicks and BOTH have no wait:
    the first click leaves [last_time] at 0.0, which the test
    [last_time > 0] takes for "no action yet", so the wait of the second
    click is 0 and not 0.5. *)
Theorem convert_sample_recording_drops_wait :
  convert_events sample_recording = [sample_click None; sample_click None]
  ∧ convert_events sample_recording
    ≠ [sample_click None; sample_click (Some (1 # 2)%Q)].
Proof. split; [vm_compute; reflexivity | vm_compute; discriminate]. Qed.

(** The same recording shifted to start at a positive offset gets the
    wait of the claim: it is measured from the previous retained action. *)
Lemma convert_wait_from_previous_action (t0 t1 ta tb : Q) :
  (0 < t0)%Q →
  convert_events [click_at t0; mousemove_at ta; mousemove_at tb; click_at t1]
  = [sample_click None; sample_click (attach_wait (t1 - t0))].
Proof.
  intros H. apply Qltb_lt in H. unfold convert_events. simpl. by rewrite H.
Qed.

(** C9: the converter's output has no mousemove action and no keypress of
    a bare modifier; its actions are exactly the retained events, in
    order; and dropped events (mousemoves, modifier keypresses) have no
    influence at all, in particular on the waits of later actions. *)
Theorem convert_drops_mousemove_and_modifiers (events : list event) :
  Forall (λ a, action_type a ≠ "mousemove") (convert_events events)
  ∧ Forall (λ a, ∀ key, act_body a = AKeypress key → key ∉ modifier_keys)
           (convert_events events)
  ∧ map act_body (convert_events events) = omap action_of events
  ∧ convert_events (filter (λ e, retained e = true) events)
    = convert_events events
  ∧ ∀ pre post e, retained e = false →
      convert_events (pre ++ e :: post) = convert_events (pre ++ post).
Proof.
  assert (Hb := foldl_convert_bodies [] 0%Q events). simpl in Hb.
  fold (convert_events events) in Hb.
  split_and!.
  - apply Forall_forall. intros [[] w] _; done.
  - apply Forall_forall. intros a Ha key Hk.
    apply (list_elem_of_fmap_2 act_body) in Ha.
    change (act_body <$> convert_events events) with
      (map act_body (convert_events events)) in Ha.
    rewrite Hb, Hk in Ha. apply list_elem_of_omap in Ha as (e & _ & He).
    apply action_of_not_modifier in He. unfold is_modifier in He.
    by apply bool_decide_eq_false in He.
  - exact Hb.
  - unfold convert_events. by rewrite foldl_convert_filter.
  - intros pre post e He. unfold convert_events.
    rewrite !foldl_app. simpl. by rewrite (convert_event_dropped _ _ He).
Qed.

End ConverterFacts.

(** ** Event replayer *)

Section ReplayerFacts.
Import Converter Replayer.
Variable p : driver.

Lemma py_div_nonzero (a b : Q) : ¬ (b == 0)%Q → py_div a b = Some (a / b)%Q.
Proof.
  intros H. unfold py_div. destruct (Qeq_bool b 0) eqn:E; [|done].
  by apply Qeq_bool_iff in E.
Qed.

Lemma computed_sleep_max (w : Q) : (computed_sleep w == Qmax 0 w)%Q.
Proof.
  unfold computed_sleep. destruct (Qltb 0 w) eqn:E.
  - apply Qltb_lt in E. symmetry. apply Q.max_r. by apply Qlt_le_weak.
  - apply Qltb_ge in E. symmetry. by apply Q.max_l.
Qed.

Lemma computed_sleep_nonneg (w : Q) : (0 <= computed_sleep w)%Q.
Proof.
  unfold computed_sleep. destruct (Qltb 0 w) eqn:E; [|apply Qle_refl].
  apply Qltb_lt in E. by apply Qlt_le_weak.
Qed.

(** What [_execute_event] appends: the entry marker, then only commands. *)
Lemma execute_event_ops event n w :
  ∃ cmds, ops (snd (_execute_event p event n w))
          = ops w ++ Exec n event :: cmds
        ∧ omap is_sleep cmds = [] ∧ omap is_exec cmds = [].
Proof.
  unfold _execute_event.
  destruct (ev_body event) as [sel x y|sy sx|key code|x y|ty]; simpl.
  - destruct (cmd_ok p (CmdClick sel)); simpl;
      rewrite <- !app_assoc; simpl; eexists; (split; [reflexivity|done]).
  - rewrite <- !app_assoc; simpl; eexists; split; [reflexivity|done].
  - rewrite <- !app_assoc; simpl; eexists; split; [reflexivity|done].
  - rewrite <- !app_assoc; simpl; eexists; split; [reflexivity|done].
  - eexists; split; [reflexivity|done].
Qed.

(** One iteration: it completes, pauses for exactly the positive part of
    [t / speed - elapsed], and then executes the event. *)
Lemma replay_event_spec speed start_time i event w :
  ¬ (speed == 0)%Q →
  let late := (timestamp event / speed - (now w - start_time))%Q in
  ∃ w' new,
    replay_event p speed start_time i event w = Some w'
    ∧ ops w' = ops w ++ new
    ∧ omap is_sleep new = (if Qltb 0 late then [late] else [])
    ∧ omap is_exec new = [(S i, event)].
Proof.
  intros Hs late. unfold replay_event, wait_time.
  rewrite (py_div_nonzero _ _ Hs). simpl. fold late.
  set (w1 := if Qltb 0 late then sleep late w else w).
  destruct (execute_event_ops event (S i) w1) as (cmds & Hops & Hsl & Hex).
  destruct (_execute_event p event (S i) w1) as [ok w2] eqn:E. simpl in Hops.
  assert (Hw1 : ops w1 = ops w ++ (if Qltb 0 late then [Sleep late] else [])).
  { unfold w1. destruct (Qltb 0 late); simpl; by rewrite ?app_nil_r. }
  eexists _, ((if Qltb 0 late then [Sleep late] else [])
              ++ Exec (S i) event :: cmds ++ (if ok then [] else [Report (S i)])).
  split; [reflexivity|]. split_and!.
  - destruct ok; simpl; rewrite Hops, Hw1, <- ?app_assoc; simpl;
      by rewrite ?app_nil_r, <- ?app_assoc.
  - rewrite omap_app. simpl. rewrite omap_app, Hsl.
    destruct (Qltb 0 late), ok; done.
  - rewrite omap_app. simpl. rewrite omap_app, Hex.
    destruct (Qltb 0 late), ok; done.
Qed.

Lemma slept_computed (late : Q) (new : list replay_op) :
  omap is_sleep new = (if Qltb 0 late then [late] else []) →
  (slept new == computed_sleep late)%Q
  ∧ Forall (λ d, (0 < d)%Q) (omap is_sleep new).
Proof.
  intros H. unfold slept, computed_sleep. rewrite H.
  destruct (Qltb 0 late) eqn:E; simpl.
  - split; [apply Qplus_0_r|]. apply Forall_singleton. by apply Qltb_lt.
  - split; [reflexivity | constructor].
Qed.

Lemma replay_loop_app speed start_time i pre post w :
  replay_loop p speed start_time i (pre ++ post) w
  = w' ← replay_loop p speed start_time i pre w;
    replay_loop p speed start_time (i + length pre) post w'.
Proof.
  revert i w. induction pre as [|e pre IH]; intros i w; simpl.
  - by rewrite Nat.add_0_r.
  - destruct (replay_event p speed start_time i e w) as [w1|]; simpl; [|done].
    rewrite IH. by rewrite Nat.add_succ_r.
Qed.

(** The loop completes and enters [_execute_event] once per event, in
    order, numbering them from [i + 1]. *)
Lemma replay_loop_total speed start_time i events w :
  ¬ (speed == 0)%Q →
  ∃ w', replay_loop p speed start_time i events w = Some w'
    ∧ omap is_exec (ops w')
      = omap is_exec (ops w) ++ imap (λ k e, (S (i + k), e)) events.
Proof.
  intros Hs. revert i w. induction events as [|e events IH]; intros i w; simpl.
  - exists w. by rewrite app_nil_r.
  - destruct (replay_event_spec speed start_time i e w Hs)
      as (w1 & new & -> & Hops & _ & Hex). simpl.
    destruct (IH (S i) w1) as (w' & -> & Hw'). exists w'. split; [done|].
    rewrite Hw', Hops, omap_app, Hex, <- app_assoc. simpl.
    rewrite Nat.add_0_r. do 2 f_equal. apply imap_ext. intros k x _. simpl.
    f_equal. lia.
Qed.

(** C7: at a non-zero speed the replay runs to the end of the recording
    and enters [_execute_event] for every event, in order (late events are
    executed, none is skipped); and the time slept before event [i] is
    [max(0, t_i / speed - elapsed)], with [elapsed] the clock reading
    minus the start of the replay, so no sleep is negative. *)
Theorem replay_sleeps_positive_part (speed : Q) (events : list event) (w0 : world) :
  ¬ (speed == 0)%Q →
  (∃ w', replay p speed events w0 = Some w'
     ∧ omap is_exec (ops w')
       = omap is_exec (ops w0) ++ imap (λ k e, (S k, e)) events)
  ∧ ∀ i event, events !! i = Some event →
      ∃ w w' new,
        replay_loop p speed (now w0) 0 (take i events) w0 = Some w
        ∧ replay_event p speed (now w0) i event w = Some w'
        ∧ ops w' = ops w ++ new
        ∧ (slept new
           == Qmax 0 (timestamp event / speed - (now w - now w0)))%Q
        ∧ Forall (λ d, (0 < d)%Q) (omap is_sleep new)
        ∧ omap is_exec new = [(S i, event)].
Proof.
  intros Hs. split.
  - apply (replay_loop_total speed (now w0) 0 events w0 Hs).
  - intros i event Hi.
    destruct (replay_loop_total speed (now w0) 0 (take i events) w0 Hs)
      as (w & Hw & _).
    destruct (replay_event_spec speed (now w0) i event w Hs)
      as (w' & new & Hw' & Hops & Hsl & Hex).
    destruct (slept_computed _ _ Hsl) as [Hsum Hpos].
    exists w, w', new. split_and!; try done.
    rewrite Hsum. apply computed_sleep_max.
Qed.

End ReplayerFacts.

(** A driver on which every selector click times out, and a recording
    replayed at double speed. *)
Lemma replay_sleeps_positive_part_witness :
  ¬ (2 == 0)%Q
  ∧ ∃ w', Replayer.replay (Replayer.Driver (λ _, false) (λ _, 1 # 100)%Q) 2
            Converter.sample_recording (Replayer.World 0 []) = Some w'.
Proof.
  split; [by intros H|].
  destruct (replay_sleeps_positive_part
              (Replayer.Driver (λ _, false) (λ _, 1 # 100)%Q) 2
              Converter.sample_recording (Replayer.World 0 []))
    as [(w' & Hw' & _) _]; [by intros H|].
  by exists w'.
Defined.

(** ** Hybrid state detector *)

Section DetectorFacts.
Import Detector.
Variable ctx : context.

Example condition_variables_ex :
  condition_variables "stage === 4 && isHellMode && count1 >= 10 && stage < 5 || Math.abs(x) > 2e3 && v !== undefined"
  = ["isHellMode"; "count1"; "stage"; "abs"; "x"; "v"].
Proof. vm_compute. reflexivity. Qed.

(** *** The DOM based [if] *)




(** *** The two [try] statements of a state *)




(** *** The statements of a schema *)












End DetectorFacts.







(** What the text of a schema can do to the script: a name that goes on
    after a line break with [return 42;] makes the function return 42,
    whatever the page and the tracked state; with a quote in a selector, or
    [typeof] in a condition, the script is not read. *)
Lemma spliced_text_changes_the_function (ctx : Detector.context) (prev : Z) :
  Detector.getCurrentState [Detector.injected_state] ctx prev
  = Detector.Returned 42
  ∧ Detector.getCurrentState [Detector.quoted_selector_state] ctx prev
    = Detector.NotRead
  ∧ Detector.getCurrentState [Detector.typeof_state] ctx prev
    = Detector.NotRead
  ∧ ¬ Detector.reads_as_intended [Detector.injected_state]
  ∧ ¬ Detector.reads_as_intended [Detector.quoted_selector_state]
  ∧ ¬ Detector.reads_as_intended [Detector.typeof_state].
Proof.
  assert (H1 : ∃ items, Detector.read_script [Detector.injected_state]
                        = Some (Detector.IReturn (Detector.RNumber 42)
                                  :: items)).
  { eexists. vm_compute. reflexivity. }
  assert (H2 : Detector.read_script [Detector.quoted_selector_state] = None).
  { vm_compute. reflexivity. }
  assert (H3 : Detector.read_script [Detector.typeof_state] = None).
  { vm_compute. reflexivity. }
  destruct H1 as [items H1].
  unfold Detector.getCurrentState, Detector.run_script.
  rewrite H1, H2, H3. split_and!; try done.
  - intros (l & Hi & Hr). rewrite H1 in Hr. injection Hr as <-.
    vm_compute in Hi. discriminate.
  - intros (l & _ & Hr). rewrite H2 in Hr. discriminate.
  - intros (l & _ & Hr). rewrite H3 in Hr. discriminate.
Qed.

(** ** Session recorder *)

Section RecorderFacts.
Import Detector Recorder.
Variable env : environment.




(** *** The polls *)







Hypothesis Havail : SNAPSHOTS_AVAILABLE env = true.







(** *** Saved files *)










End RecorderFacts.






(** Without a schema, on a page whose [stage] is [true] and then 1: the
    two polls are in the same state, the snapshot is stored under the key
    [True], and the files are [stage_True.json] and a metadata file whose
    stage numbers are [[true]]; no [stage_1.json] is written. *)
Lemma boolean_stage_is_saved_under_its_text :
  let ticks := [(Recorder.page_with_stage (VBool true) "<p>on</p>", 101%Q);
                (Recorder.page_with_stage (VInt 1) "<p>one</p>", 102%Q)] in
  let files := Recorder.record_and_save Recorder.no_schema "session_1" 100
                 ticks ∅ in
  Recorder.stage_file "session_1" (Recorder.KBool true)
  = "snapshots/session_1/stage_True.json"
  ∧ files !! "snapshots/session_1/stage_True.json"
    = Some (Recorder.SnapshotFile
              (Recorder.sample_snapshot_of (VBool true) "<p>on</p>"
                 (101 - 100)))
  ∧ files !! "snapshots/session_1/stage_1.json" = None
  ∧ files !! Recorder.metadata_file "session_1"
    = Some (Recorder.MetadataFile
              {| Recorder.md_session_id := "session_1";
                 Recorder.stages_captured := 1;
                 Recorder.stage_numbers := [Recorder.KBool true] |}).
Proof. split_and!; vm_compute; reflexivity. Qed.
(** ** Schema validation *)

Section ValidatorFacts.
Import Validator.

Lemma state_has_fields_spec state :
  state_has_fields state = true
  ↔ ∀ field, field ∈ required_fields → contains state field = Some true.
Proof.
  unfold state_has_fields. rewrite forallb_forall. split.
  - intros H field Hf. apply list_elem_of_In in Hf. specialize (H _ Hf).
    by destruct (contains state field) as [[]|].
  - intros H field Hf. apply list_elem_of_In in Hf. by rewrite (H _ Hf).
Qed.

Lemma lacks_field_rejected state :
  lacks_field state → state_has_fields state = false.
Proof.
  intros (d & field & -> & Hf & Hd). apply not_true_is_false. intros H.
  apply state_has_fields_spec with (field := field) in H; [|done].
  simpl in H. rewrite Hd in H. discriminate.
Qed.

(** What the validator accepts, exactly. *)
Lemma validate_states_json_spec data :
  _validate_states_json data = true
  ↔ ∃ d md total states,
      data = VDict d
      ∧ dict_get d "metadata" = Some (VDict md)
      ∧ dict_get md "total_states" = Some total
      ∧ dict_get d "states" = Some (VList states)
      ∧ states ≠ []
      ∧ Forall (λ state, state_has_fields state = true) states.
Proof.
  split.
  - destruct data as [| | | | |d]; simpl; try discriminate.
    destruct (dict_get d "metadata") as [[| | | | |md]|] eqn:Hm;
      try discriminate;
    destruct (dict_get d "states") as [sts|] eqn:Hs; try discriminate.
    destruct (dict_get md "total_states") as [total|] eqn:Ht;
      try discriminate.
    destruct sts as [| | | |states|]; try discriminate.
    destruct states as [|s states]; try discriminate.
    intros H. exists d, md, total, (s :: states). split_and!; try done.
    apply Forall_forall. intros x Hx. apply list_elem_of_In in Hx.
    revert x Hx. by apply forallb_forall.
  - intros (d & md & total & states & -> & Hm & Ht & Hs & Hne & Hall).
    simpl. rewrite Hm, Hs, Ht. destruct states as [|s states]; [done|].
    apply forallb_forall. intros x Hx. apply list_elem_of_In in Hx.
    revert x Hx. by apply Forall_forall.
Qed.

Example duplicate_schema_accepted :
  _validate_states_json duplicate_schema = true.
Proof. reflexivity. Qed.

End ValidatorFacts.

(** C8, as the code has it: the validator accepts exactly the dictionaries
    with a ['metadata'] dictionary that has ['total_states'] and a non-empty
    ['states'] list whose entries each contain ['id'], ['name'],
    ['description'] and ['color_theme']. So a schema without states, with an
    empty state list, or with a state object that lacks one of these fields
    is rejected, and [detect_states], the one caller of the validator,
    raises for it. The ids are not compared: the validator has no check for
    duplicates. The recorder and the panel generator read the schema
    without validating it: for the schema with an empty state list, which
    the validator rejects, the recorder's detection runs and answers -1,
    and the generated [getCurrentState] answers with the tracked state. *)
Theorem validation_rejects_missing_fields_and_empty_list (data : value) :
  (Validator._validate_states_json data = true
   ↔ ∃ d md total states,
       data = VDict d
       ∧ dict_get d "metadata" = Some (VDict md)
       ∧ dict_get md "total_states" = Some total
       ∧ dict_get d "states" = Some (VList states)
       ∧ states ≠ []
       ∧ Forall (λ state, Validator.state_has_fields state = true) states)
  ∧ (Validator.states_of data = [] →
     Validator._validate_states_json data = false)
  ∧ ((∃ state, state ∈ Validator.states_of data ∧ Validator.lacks_field state) →
     Validator._validate_states_json data = false)
  ∧ (Validator._validate_states_json data = false →
     Validator.detect_states data = None)
  ∧ Validator._validate_states_json (Validator.schema_of []) = false
  ∧ Validator.states_of (Validator.schema_of []) = []
  ∧ (∀ env page, Recorder.STATES_SCHEMA env = Some [] →
       Recorder.current_state env page = Some (Recorder.KInt (-1)))
  ∧ (∀ ctx prev, Detector.getCurrentState [] ctx prev
                 = Detector.Returned prev).
Proof.
  split_and!.
  - apply validate_states_json_spec.
  - intros He. apply not_true_is_false. intros H.
    apply validate_states_json_spec in H
      as (d & md & total & states & -> & _ & _ & Hs & Hne & _).
    simpl in He. rewrite Hs in He. done.
  - intros (state & Hin & Hl). apply not_true_is_false. intros H.
    apply validate_states_json_spec in H
      as (d & md & total & states & -> & _ & _ & Hs & _ & Hall).
    simpl in Hin. rewrite Hs in Hin.
    rewrite Forall_forall in Hall. specialize (Hall _ Hin).
    rewrite (lacks_field_rejected _ Hl) in Hall. done.
  - intros H. unfold Validator.detect_states. by rewrite H.
  - reflexivity.
  - reflexivity.
  - intros env page Hs.
    unfold Recorder.current_state, Recorder._detect_current_state.
    by rewrite Hs.
  - intros ctx prev. unfold Detector.getCurrentState, Detector.run_script.
    assert (Detector.read_script []
            = Some [Detector.IReturn Detector.RTracked]) as ->
      by (vm_compute; reflexivity).
    reflexivity.
Qed.

(** C8 as stated fails for duplicate ids: a schema whose two states share
    the id 0 is accepted, and [detect_states] returns it. *)
Lemma duplicate_state_ids_accepted :
  Validator.has_duplicate_id Validator.duplicate_schema
  ∧ Validator._validate_states_json Validator.duplicate_schema = true
  ∧ Validator.detect_states Validator.duplicate_schema
    = Some Validator.duplicate_schema.
Proof.
  split_and!; [|reflexivity..].
  exists 0%nat, 1%nat, (Validator.sample_state 0 "Initial"),
         (Validator.sample_state 0 "Positive Hook"), (VInt 0).
  by split_and!.
Qed.

(** ** String literals of the restore script *)

Section LiteralFacts.
Import MiniJS.
Variable q : ascii.

Lemma lex_cons_ok c r v rest :
  lex_cons c r = LexOk v rest →
  ∃ v', v = String c v' ∧ r = LexOk v' rest.
Proof. destruct r; simpl; [|done..]. intros [= <- <-]. eauto. Qed.

(** A string of plain characters is its own literal. *)
Lemma lex_string_plain v rest :
  plain_string q v = true → lex_string q (v +:+ String q rest) = LexOk v rest.
Proof.
  induction v as [|c v IH]; simpl.
  - intros _. by rewrite Ascii.eqb_refl.
  - unfold plain_char. rewrite !andb_true_iff, !negb_true_iff.
    intros [[[-> ->] ->] Hv]. by rewrite (IH Hv).
Qed.

Local Ltac lex_rec IH :=
  match goal with
  | H : lex_cons _ (lex_string _ _) = LexOk _ _ |- _ =>
      apply lex_cons_ok in H as (? & -> & H);
      apply IH in H; [|simpl in *; lia]
  | H : lex_string _ _ = LexOk _ _ |- _ =>
      apply IH in H; [|simpl in *; lia]
  end.

(** A literal never denotes more characters than it is written with, and
    it denotes as many only when every character is plain. *)
Lemma lex_string_length n : ∀ s v rest,
  (String.length s ≤ n)%nat →
  lex_string q s = LexOk v rest →
  (String.length v + String.length rest + 1 ≤ String.length s)%nat
  ∧ ((String.length v + String.length rest + 1 = String.length s)%nat →
     s = v +:+ String q rest ∧ plain_string q v = true).
Proof.
  induction n as [|n IH]; intros s v rest Hn H.
  { destruct s; simpl in *; [done | lia]. }
  destruct s as [|c s]; [done|]. cbn [lex_string] in H.
  destruct (Ascii.eqb c q) eqn:Hq.
  { apply Ascii.eqb_eq in Hq as ->. injection H as <- <-. simpl.
    split; [lia | done]. }
  destruct (is_line_terminator c) eqn:Hl; [done|].
  destruct (Ascii.eqb c backslash) eqn:Hb.
  - destruct s as [|e s1]; [done|].
    assert (Hesc : ∀ X v' k,
      (String.length X + 2 ≤ String.length (String c (String e s1)))%nat →
      (String.length v ≤ S (String.length v'))%nat →
      ((String.length v' + String.length rest + 1 ≤ String.length X)%nat ∧ k) →
      (String.length v + String.length rest + 1
       ≤ String.length (String c (String e s1)))%nat
      ∧ ((String.length v + String.length rest + 1
          = String.length (String c (String e s1)))%nat →
         String c (String e s1) = v +:+ String q rest
         ∧ plain_string q v = true)).
    { intros X v' k HX Hv [Hle _]. split; [lia | intros; lia]. }
    destruct (simple_escape e).
    { lex_rec IH. eapply Hesc; [| |exact H]; simpl; lia. }
    destruct (Ascii.eqb e "x").
    { destruct s1 as [|h1 [|h2 s2]]; try done.
      destruct (code_unit _); [|done].
      lex_rec IH. eapply Hesc; [| |exact H]; simpl; lia. }
    destruct (Ascii.eqb e "u").
    { destruct s1 as [|h1 s1]; [done|].
      destruct s1 as [|h2 [|h3 [|h4 s2]]];
        try (by destruct (Ascii.eqb h1 "{")).
      destruct (Ascii.eqb h1 "{"); [done|].
      destruct (code_unit _) as [m|]; [|done].
      destruct (m <? 256)%N; [|done].
      lex_rec IH. eapply Hesc; [| |exact H]; simpl; lia. }
    destruct (Ascii.eqb e LF).
    { lex_rec IH. eapply Hesc; [| |exact H]; simpl; lia. }
    destruct (Ascii.eqb e CR).
    { destruct s1 as [|l s2].
      - lex_rec IH. eapply Hesc; [| |exact H]; simpl; lia.
      - destruct (Ascii.eqb l LF);
          lex_rec IH; (eapply Hesc; [| |exact H]; simpl; lia). }
    destruct (is_digit e).
    { destruct (Ascii.eqb e "0"); [|done].
      destruct s1 as [|d s2].
      - lex_rec IH. eapply Hesc; [| |exact H]; simpl; lia.
      - destruct (is_digit d); [done|].
        lex_rec IH. eapply Hesc; [| |exact H]; simpl; lia. }
    lex_rec IH. eapply Hesc; [| |exact H]; simpl; lia.
  - lex_rec IH. destruct H as [Hle Heq]. simpl. split; [lia|].
    intros Hlen. simpl in Hlen. injection Hlen as Hlen.
    destruct (Heq Hlen) as [-> Hp]. split; [done|].
    unfold plain_char. by rewrite Hq, Hl, Hb, Hp.
Qed.

(** A quoted string denotes the very characters between the quotes
    exactly when none of them is the quote, a backslash or a line
    terminator. *)
Lemma lex_string_exact v :
  lex_string q (v +:+ String q EmptyString) = LexOk v EmptyString
  ↔ plain_string q v = true.
Proof.
  split; [|apply lex_string_plain].
  intros H. eapply lex_string_length in H; [|reflexivity].
  destruct H as [_ H]. apply H.
  rewrite string_app_length. simpl. lia.
Qed.

End LiteralFacts.

(** ** Stage restore *)

Section RestoreFacts.
Import MiniJS Recorder TestStage.

Lemma replace_app c by_ s1 s2 :
  replace c by_ (s1 +:+ s2) = replace c by_ s1 +:+ replace c by_ s2.
Proof.
  induction s1 as [|a s1 IH]; simpl; [done|].
  rewrite IH. destruct (Ascii.eqb a c); simpl; [|done].
  by rewrite string_app_assoc.
Qed.

Lemma escape_html_cons c s :
  escape_html (String c s) = escape_char c +:+ escape_html s.
Proof.
  unfold escape_html, escape_char. cbn [replace].
  rewrite !replace_app.
  destruct (Ascii.eqb c backslash) eqn:Hb.
  { apply Ascii.eqb_eq in Hb as ->. reflexivity. }
  cbn [replace]. rewrite !replace_app.
  destruct (Ascii.eqb c squote) eqn:Hq.
  { apply Ascii.eqb_eq in Hq as ->. reflexivity. }
  cbn [replace]. destruct (Ascii.eqb c LF) eqn:Hl; reflexivity.
Qed.

(** The escaped DOM fragment, between single quotes, denotes the
    fragment. *)
Lemma escape_html_literal html rest :
  has_char CR html = false →
  lex_string squote (escape_html html +:+ String squote rest)
  = LexOk html rest.
Proof.
  induction html as [|c html IH].
  { intros _. reflexivity. }
  unfold has_char. cbn [list_ascii_of_string existsb].
  rewrite orb_false_iff. intros [Hc Hr]. specialize (IH Hr).
  rewrite escape_html_cons, string_app_assoc. unfold escape_char.
  destruct (Ascii.eqb c backslash) eqn:Hb.
  { apply Ascii.eqb_eq in Hb as ->.
    rewrite !string_app_cons, string_app_nil_l. cbn [lex_string]. simpl.
    by rewrite IH. }
  destruct (Ascii.eqb c squote) eqn:Hq.
  { apply Ascii.eqb_eq in Hq as ->.
    rewrite !string_app_cons, string_app_nil_l. cbn [lex_string]. simpl.
    by rewrite IH. }
  destruct (Ascii.eqb c LF) eqn:Hl.
  { apply Ascii.eqb_eq in Hl as ->.
    rewrite !string_app_cons, string_app_nil_l. cbn [lex_string]. simpl.
    by rewrite IH. }
  rewrite !string_app_cons, string_app_nil_l. cbn [lex_string].
  rewrite Hq. unfold is_line_terminator. rewrite Hl.
  rewrite Ascii.eqb_sym, Hc. simpl. rewrite Hb. by rewrite IH.
Qed.

(** *** One variable holding a plain string *)

Lemma tokenize_space n c rest :
  is_space c = true → tokenize (S n) (String c rest) = tokenize n rest.
Proof. intros H. cbn [tokenize]. by rewrite H. Qed.

Lemma tokenize_quote n c rest :
  is_space c = false → Ascii.eqb c squote || Ascii.eqb c dquote = true →
  tokenize (S n) (String c rest)
  = match lex_string c rest with
    | LexOk value rest => tok_cons (TStr value) (tokenize n rest)
    | LexError => TokError
    | LexUnsupported => TokUnsupported
    end.
Proof. intros H1 H2. cbn [tokenize]. by rewrite H1, H2. Qed.

Lemma tokenize_name n c s name rest :
  is_space c = false → Ascii.eqb c squote || Ascii.eqb c dquote = false →
  is_ident_start c = true →
  span is_ident_part (String c s) = (name, rest) →
  name ∉ unmodelled_names →
  tokenize (S n) (String c s) = tok_cons (TIdent name) (tokenize n rest).
Proof.
  intros H1 H2 H3 H4 H5. cbn [tokenize]. rewrite H1, H2, H3, H4.
  by rewrite bool_decide_eq_false_2.
Qed.

Lemma tokenize_punct n c rest :
  is_space c = false → Ascii.eqb c squote || Ascii.eqb c dquote = false →
  is_ident_start c = false → is_digit c = false → c ∈ punctuation →
  tokenize (S n) (String c rest) = tok_cons (TPunct c) (tokenize n rest).
Proof.
  intros H1 H2 H3 H4 H5. cbn [tokenize]. rewrite H1, H2, H3, H4.
  by rewrite bool_decide_eq_true_2.
Qed.

Lemma full_script_stage v :
  full_script (snapshot_of [("stage", VStr v)] None)
  = Some ("stage = '" +:+ v +:+ "';").
Proof. vm_compute. reflexivity. Qed.

Lemma js_tokens_stage v :
  plain_string squote v = true →
  js_tokens ("stage = '" +:+ v +:+ "';")
  = Tokens [TIdent "stage"; TPunct "="; TStr v; TPunct ";"].
Proof.
  intros Hv. unfold js_tokens.
  rewrite !string_app_cons, string_app_nil_l. cbn [String.length].
  rewrite (tokenize_name _ _ _ "stage"
             (String " " (String "=" (String " "
                (String "'" (v +:+ "';"))))));
    [|reflexivity..|compute_done].
  rewrite tokenize_space by reflexivity.
  rewrite tokenize_punct; [|reflexivity..|compute_done].
  rewrite tokenize_space by reflexivity.
  rewrite tokenize_quote by reflexivity.
  rewrite (lex_string_plain "'"%char v ";" Hv).
  rewrite tokenize_punct; [|reflexivity..|compute_done].
  reflexivity.
Qed.

(** A snapshot whose only entry is a plain string for [stage] is
    restored: the page ends with that string in [stage]. *)
Lemma restore_plain_string p v :
  pg_closed p = false → plain_string squote v = true →
  restore_state p (snapshot_of [("stage", VStr v)] None)
  = Restored (set_var p "stage" (VStr v)).
Proof.
  intros Hp Hv. unfold restore_state. rewrite full_script_stage.
  unfold evaluate, js_run. rewrite Hp, (js_tokens_stage _ Hv).
  reflexivity.
Qed.

End RestoreFacts.

(** C10, as the code has it: a captured string is put between single
    quotes as it is, and what JavaScript reads between the quotes is the
    captured string exactly when the string has no single quote, backslash
    or line break (a snapshot that holds such a string for [stage], and
    nothing else, is restored). The DOM fragment is escaped and is read
    back as captured (short of a carriage return, which is left as it
    is). For the snapshot
    whose [stage] is the string [it's] the script is [stage = 'it's';], a
    syntax error: the restore raises and the page keeps its old [stage]. *)
Theorem restore_interpolates_strings_unescaped :
  (∀ var_name s,
     TestStage.variable_statement var_name (VStr s)
     = var_name +:+ " = '" +:+ s +:+ "';")
  ∧ (∀ s, MiniJS.lex_string MiniJS.squote (s +:+ "'")
          = MiniJS.LexOk s EmptyString
          ↔ MiniJS.plain_string MiniJS.squote s = true)
  ∧ (∀ p s, pg_closed p = false →
            MiniJS.plain_string MiniJS.squote s = true →
            TestStage.restore_state p (TestStage.snapshot_of [("stage", VStr s)] None)
            = TestStage.Restored (TestStage.set_var p "stage" (VStr s)))
  ∧ (∀ dom rest, TestStage.has_char MiniJS.CR dom = false →
       MiniJS.lex_string MiniJS.squote
         (TestStage.escape_html dom +:+ String MiniJS.squote rest)
       = MiniJS.LexOk dom rest)
  ∧ Recorder.snap_vars TestStage.quoted_snapshot !! "stage" = Some (VStr "it's")
  ∧ TestStage.has_char MiniJS.squote "it's" = true
  ∧ TestStage.full_script TestStage.quoted_snapshot = Some "stage = 'it's';"
  ∧ MiniJS.js_run "stage = 'it's';" TestStage.fresh_page = MiniJS.SyntaxError
  ∧ TestStage.restore_state TestStage.fresh_page TestStage.quoted_snapshot
    = TestStage.Raised TestStage.fresh_page
  ∧ pg_vars TestStage.fresh_page !! "stage" = Some (VInt 0).
Proof.
  split_and!.
  - reflexivity.
  - intros s. apply (lex_string_exact MiniJS.squote).
  - apply restore_plain_string.
  - apply escape_html_literal.
  - reflexivity.
  - reflexivity.
  - reflexivity.
  - vm_compute. reflexivity.
  - vm_compute. reflexivity.
  - reflexivity.
Qed.

(** C10 as stated fails in the "only if": the string [' + caption + ']
    has single quotes, its script is [stage = '' + caption + '';], and on a
    page whose [caption] holds that string the restore turns [stage] from 0
    into exactly the captured string; likewise [' + stage + '] restored
    into the page it was captured from. The value is rebuilt by the code
    the string runs as, not read from the literal. *)
Lemma quoted_string_restored_by_its_code :
  TestStage.has_char MiniJS.squote (TestStage.echo_string "caption") = true
  ∧ TestStage.full_script (TestStage.echo_snapshot "caption")
    = Some "stage = '' + caption + '';"
  ∧ pg_vars TestStage.caption_page !! "stage" = Some (VInt 0)
  ∧ TestStage.restore_state TestStage.caption_page
      (TestStage.echo_snapshot "caption")
    = TestStage.Restored
        (TestStage.set_var TestStage.caption_page "stage"
           (VStr (TestStage.echo_string "caption")))
  ∧ TestStage.full_script (TestStage.echo_snapshot "stage")
    = Some "stage = '' + stage + '';"
  ∧ TestStage.restore_state TestStage.captured_page
      (TestStage.echo_snapshot "stage")
    = TestStage.Restored
        (TestStage.set_var TestStage.captured_page "stage"
           (VStr (TestStage.echo_string "stage"))).
Proof. split_and!; vm_compute; reflexivity. Qed.

(** C5 fails on the code for a snapshot whose string closes the quote and
    goes on with a statement: the script of the snapshot with [stage] equal
    to [a'; tapCount = tapCount + 1; '] is
    [stage = 'a'; tapCount = tapCount + 1; '';], which runs. After one
    restore [tapCount] is 1, after a second restore with the same snapshot
    it is 2: what is observed of the page differs. *)
Theorem restore_twice_differs_on_injected_string :
  TestStage.full_script TestStage.injected_snapshot
  = Some "stage = 'a'; tapCount = tapCount + 1; '';"
  ∧ ∃ p1 p2,
      TestStage.restore_state TestStage.fresh_page TestStage.injected_snapshot
      = TestStage.Restored p1
      ∧ TestStage.restore_state p1 TestStage.injected_snapshot
        = TestStage.Restored p2
      ∧ pg_vars p1 !! "tapCount" = Some (VInt 1)
      ∧ pg_vars p2 !! "tapCount" = Some (VInt 2)
      ∧ TestStage.observe p1 ≠ TestStage.observe p2.
Proof.
  split; [reflexivity|].
  destruct (TestStage.restore_state TestStage.fresh_page
              TestStage.injected_snapshot) as [p1| |] eqn:E1;
    try (vm_compute in E1; discriminate).
  destruct (TestStage.restore_state p1 TestStage.injected_snapshot)
    as [p2| |] eqn:E2.
  - exists p1, p2.
    assert (H1 : pg_vars p1 !! "tapCount" = Some (VInt 1)).
    { vm_compute in E1. injection E1 as <-. reflexivity. }
    assert (H2 : pg_vars p2 !! "tapCount" = Some (VInt 2)).
    { vm_compute in E1. injection E1 as <-.
      vm_compute in E2. injection E2 as <-. reflexivity. }
    split_and!; try done.
    intros H. unfold TestStage.observe in H.
    apply (f_equal (λ o, o.1.1 !! 2%nat)) in H. simpl in H.
    rewrite H1, H2 in H. discriminate.
  - vm_compute in E1. injection E1 as <-. vm_compute in E2. discriminate.
  - vm_compute in E1. injection E1 as <-. vm_compute in E2. discriminate.
Qed.

(** ** Restoring twice *)

Section RestoreTwice.
Import MiniJS Recorder TestStage.

Lemma page_eq (a b : page) :
  pg_closed a = pg_closed b → pg_vars a = pg_vars b →
  pg_nodes a = pg_nodes b → a = b.
Proof. destruct a, b; simpl; by intros -> -> ->. Qed.

Lemma eval_closed p q e : closed e = true → eval p e = eval q e.
Proof.
  induction e as [v|x|a IHa b IHb]; simpl; [done..|].
  intros [Ha Hb]%andb_true_iff. by rewrite (IHa Ha), (IHb Hb).
Qed.



(** One statement keeps the closed flag, the defined variables and the
    elements with their display. *)
Lemma exec_stmt_frame p s p' :
  exec_stmt p s = Done p' ∨ exec_stmt p s = Thrown p' →
  pg_closed p' = pg_closed p
  ∧ (∀ x, is_Some (pg_vars p !! x) → is_Some (pg_vars p' !! x))
  ∧ (∀ id, nd_display <$> pg_nodes p' !! id = nd_display <$> pg_nodes p !! id).
Proof.
  assert (Hset : ∀ id c,
    set_content p id c = Done p' ∨ set_content p id c = Thrown p' →
    pg_closed p' = pg_closed p
    ∧ (∀ x, is_Some (pg_vars p !! x) → is_Some (pg_vars p' !! x))
    ∧ (∀ i, nd_display <$> pg_nodes p' !! i = nd_display <$> pg_nodes p !! i)).
  { intros id c. unfold set_content.
    destruct (pg_nodes p !! id) as [n|] eqn:En.
    - intros [[= <-]|[=]]. simpl. split_and!; try done.
      intros i. destruct (decide (id = i)) as [->|Hne].
      + by rewrite lookup_insert_eq, En.
      + by rewrite lookup_insert_ne.
    - intros [[=]|[= <-]]. done. }
  destruct s as [t e|e]; simpl.
  - destruct (eval p e) as [v|]; [|by intros [[=]|[=]]].
    destruct t as [x|id|id].
    + destruct (assignable p x); [|by intros [[=]|[=]]].
      intros [[= <-]|[=]]. simpl. split_and!; try done.
      intros y Hy. destruct (decide (x = y)) as [->|Hne].
      * rewrite lookup_insert_eq. by eexists.
      * by rewrite lookup_insert_ne.
    + destruct (to_text v); [apply Hset | by intros [[=]|[=]]].
    + destruct (to_text v); [apply Hset | by intros [[=]|[=]]].
  - destruct (eval p e); intros [[= <-]|[=]]. done.
Qed.

Lemma reaches_frame l : ∀ p P,
  reaches p l P →
  pg_closed P = pg_closed p
  ∧ (∀ x, is_Some (pg_vars p !! x) → is_Some (pg_vars P !! x))
  ∧ (∀ id, nd_display <$> pg_nodes P !! id = nd_display <$> pg_nodes p !! id).
Proof.
  induction l as [|s l IH]; intros p P; unfold reaches; simpl.
  - intros [[= <-]|[=]]. done.
  - destruct (exec_stmt p s) as [p'| p'|] eqn:E.
    + intros H. destruct (exec_stmt_frame p s p') as (H1 & H2 & H3); [by left|].
      destruct (IH p' P H) as (H4 & H5 & H6). split_and!.
      * congruence.
      * intros x Hx. by apply H5, H2.
      * intros id. by rewrite H6, H3.
    + intros [[=]|[= <-]]. apply (exec_stmt_frame p s p'). by right.
    + by intros [[=]|[=]].
Qed.



Lemma near_same q p : near q p p → q = p.
Proof.
  intros (Hc & Hv & Hn). apply page_eq; [done| |].
  - apply map_eq. intros x. by destruct (Hv x).
  - apply map_eq. intros x. by destruct (Hn x).
Qed.

(** Statements that read no variable do to a page that is near what they
    did to the page it is near to. *)
Lemma run_closed_near l : ∀ p q P,
  forallb closed_stmt l = true → reaches p l P → near q p P →
  run_stmts q l = run_stmts p l.
Proof.
  induction l as [|s l IH]; intros p q P Hcl Hreach Hnear.
  - destruct Hreach as [[= <-]|[=]]. simpl. f_equal. by apply near_same.
  - simpl in Hcl. apply andb_true_iff in Hcl as [Hs Hl].
    destruct (reaches_frame _ _ _ Hreach) as (_ & Hmono & Hdisp).
    destruct Hnear as (Hc & Hv & Hn).
    assert (Hnode : ∀ id n, pg_nodes p !! id = Some n →
              ∃ n', pg_nodes q !! id = Some n' ∧ nd_display n' = nd_display n).
    { intros id n Hp. destruct (Hn id) as [H|H].
      - exists n. by rewrite H.
      - specialize (Hdisp id). rewrite Hp in Hdisp. rewrite H.
        destruct (pg_nodes P !! id) as [n'|]; [|done].
        injection Hdisp as Hd. by exists n'. }
    assert (Hset : ∀ id c,
      (∀ p', set_content p id c = Done p' → reaches p' l P →
        ∃ q', set_content q id c = Done q' ∧ near q' p' P)
      ∧ (∀ p', set_content p id c = Thrown p' → P = p →
           set_content q id c = Thrown p)).
    { intros id c. unfold set_content.
      destruct (pg_nodes p !! id) as [n|] eqn:En.
      - split; [|done]. intros p' [= <-] _.
        destruct (Hnode id n En) as (n' & -> & ->).
        eexists. split; [done|]. split_and!; simpl; try done.
        intros i. destruct (decide (id = i)) as [->|Hne].
        + left. by rewrite !lookup_insert_eq.
        + rewrite !lookup_insert_ne by done. apply Hn.
      - split; [done|]. intros p' [= <-] ->.
        assert (q = p) as -> by (apply near_same; by split_and!).
        by rewrite En. }
    unfold reaches in Hreach. simpl in Hreach |- *.
    destruct s as [t e|e]; simpl in *.
    + rewrite (eval_closed q p e Hs).
      destruct (eval p e) as [v|]; [|by destruct Hreach].
      destruct t as [x|id|id].
      * assert (Ha : assignable p x = true → assignable q x = true).
        { unfold assignable. rewrite !orb_true_iff, !bool_decide_eq_true.
          intros [H|H]; [by left|right]. destruct (Hv x) as [Hx|Hx]; rewrite Hx.
          - done.
          - by apply Hmono. }
        destruct (assignable p x); [|by destruct Hreach]. rewrite Ha by done.
        apply (IH _ _ P Hl Hreach). split_and!; simpl; try done.
        intros y. destruct (decide (x = y)) as [->|Hne].
        -- left. by rewrite !lookup_insert_eq.
        -- rewrite !lookup_insert_ne by done. apply Hv.
      * destruct (to_text v) as [txt|]; [|by destruct Hreach].
        destruct (Hset id (Markup txt)) as [Hd Ht].
        destruct (set_content p id (Markup txt)) as [p'|p'|] eqn:E.
        -- destruct (Hd p' eq_refl Hreach) as (q' & -> & Hq').
           by apply (IH _ _ P Hl Hreach).
        -- assert (p' = p) as ->.
           { unfold set_content in E.
             destruct (pg_nodes p !! id); [discriminate | by injection E]. }
           assert (P = p) as -> by (by destruct Hreach as [[=]|[= ->]]).
           by rewrite (Ht p eq_refl eq_refl).
        -- by destruct Hreach.
      * destruct (to_text v) as [txt|]; [|by destruct Hreach].
        destruct (Hset id (Text txt)) as [Hd Ht].
        destruct (set_content p id (Text txt)) as [p'|p'|] eqn:E.
        -- destruct (Hd p' eq_refl Hreach) as (q' & -> & Hq').
           by apply (IH _ _ P Hl Hreach).
        -- assert (p' = p) as ->.
           { unfold set_content in E.
             destruct (pg_nodes p !! id); [discriminate | by injection E]. }
           assert (P = p) as -> by (by destruct Hreach as [[=]|[= ->]]).
           by rewrite (Ht p eq_refl eq_refl).
        -- by destruct Hreach.
    + rewrite (eval_closed q p e Hs).
      destruct (eval p e) as [v|]; [|by destruct Hreach].
      apply (IH _ _ P Hl Hreach). by split_and!.
Qed.

(** Running twice statements that read no variable is running them once. *)
Lemma run_closed_twice l p P :
  forallb closed_stmt l = true → reaches p l P →
  run_stmts P l = run_stmts p l.
Proof.
  intros Hcl Hreach. apply (run_closed_near l p P P Hcl Hreach).
  destruct (reaches_frame _ _ _ Hreach) as (Hc & _ & _).
  split_and!; [done | by right | by right].
Qed.

(** A snapshot whose script reads no variable is restored the second time
    to the very page the first restore left. *)
Lemma restore_state_twice_closed snapshot p p1 :
  closed_script snapshot = true →
  page_after (restore_state p snapshot) = Some p1 →
  restore_state p1 snapshot = restore_state p snapshot.
Proof.
  unfold closed_script, restore_state.
  destruct (full_script snapshot) as [script|]; [|by intros _ [= <-]].
  unfold evaluate, js_run.
  destruct (pg_closed p) eqn:Hp; [by intros _ [= <-]; rewrite Hp|].
  destruct (js_tokens script) as [toks| |]; [| |done].
  - destruct (parse toks) as [stmts|]; [|done]. intros Hcl.
    destruct (run_stmts p stmts) as [p'|p'|] eqn:E; simpl; [| |done].
    + intros [= <-].
      assert (Hr : reaches p stmts p') by by left.
      destruct (reaches_frame _ _ _ Hr) as (-> & _ & _). rewrite Hp.
      by rewrite (run_closed_twice _ _ _ Hcl Hr), E.
    + intros [= <-].
      assert (Hr : reaches p stmts p') by by right.
      destruct (reaches_frame _ _ _ Hr) as (-> & _ & _). rewrite Hp.
      by rewrite (run_closed_twice _ _ _ Hcl Hr), E.
  - intros _ [= <-]. by rewrite Hp.
Qed.

Example plain_snapshot_closed : closed_script plain_snapshot = true.
Proof. vm_compute. reflexivity. Qed.

End RestoreTwice.
